(** * jwt_generate: the wallet entry points and the JWT-like token protocol

    A shallow embedding of [apps/jwt-generate/index.ts] together with the
    request records of [wallet/inputs/types.ts].  The entry points are
    programs over the calls they make to their collaborators (the [Wallet]
    class and the [emit]/[revert] functions of [./klave/types]); a handler
    gives those calls a meaning and [run] executes a program against it,
    recording every call together with its answer.  A call of the base64
    [decode] that aborts ends the run. *)

From Stdlib Require Import List Bool NArith ZArith Lia String Ascii.
From Stdlib Require Strings.Byte.
From Stdlib Require Import Init.Byte.
Import ListNotations.
Local Open Scope N_scope.
Local Open Scope list_scope.

Set Implicit Arguments.

(* ================================================================== *)
(** ** Strings

    An AssemblyScript [string] is a sequence of UTF-16 code units. *)

Definition char := N.
Definition str := list char.

(** An ASCII literal of the source, as a string of code units. *)
Definition lit (s : string) : str := map N_of_ascii (list_ascii_of_string s).

Definition DOT : char := 46.        (* full stop *)
Definition BACKSLASH : char := 92.  (* reverse solidus *)
Definition QUOTE : char := 34.      (* quotation mark *)
Definition NUL : char := 0.

Definition str_eqb (a b : str) : bool :=
  if list_eq_dec N.eq_dec a b then true else false.

(** [s.split(sep)] for a separator of one code unit: the pieces between the
    occurrences of the separator, in order (the empty string gives one empty
    piece). *)
Fixpoint split (s : str) (sep : char) : list str :=
  match s with
  | [] => [[]]
  | c :: s' =>
      if c =? sep then [] :: split s' sep
      else match split s' sep with
           | seg :: rest => (c :: seg) :: rest
           | [] => [[c]]
           end
  end.

(** [s.replace(search, replacement)] for a search string of one code unit:
    only the first occurrence is replaced. *)
Fixpoint replace (s : str) (search : char) (replacement : str) : str :=
  match s with
  | [] => []
  | c :: s' =>
      if c =? search then replacement ++ s'
      else c :: replace s' search replacement
  end.

Definition nul_free (s : str) : bool := forallb (fun c => negb (c =? NUL)) s.

(** Every element is a code unit, that is, below 2^16. *)
Definition wf_str (s : str) : bool := forallb (fun c => c <? 65536) s.

(* ================================================================== *)
(** ** Request records ([wallet/inputs/types.ts]) *)

Record CreateWalletInput := { cw_name : str }.
Record AddUserInput := { au_userId : str; au_role : str }.
Record RemoveUserInput := { ru_userId : str }.
Record GenerateKeyInput := { gk_description : str; gk_algorithm : str }.
Record RemoveKeyInput := { rk_keyId : str }.
Record ListKeysInput := { lk_user : str }.

Record KeyInput := {
  format : str;        (* raw, spki, pkcs8, jwk *)
  keyData : str;       (* base64 encoded *)
  algorithm : str;     (* ECDSA, AES-GCM, RSA-PSS *)
  extractable : bool;
  usages : list str
}.

Record ImportKeyInput := { ik_description : str; ik_key : KeyInput }.
Record JWTHeader := { alg : str }.
Record JWTGenerateInput := { jg_keyId : str; jg_payload : str }.
Record JWTCheckInput := { jc_keyId : str; jc_jwt : str }.

(* ================================================================== *)
(** ** The codec used by the token functions

    [encode]/[decode] are imported from the external package [as-base64];
    [String.UTF8.encode]/[String.UTF8.decode] belong to the AssemblyScript
    standard library (their second argument is the [nullTerminated] flag).
    Neither is part of the repository, so the entry points are written over
    this interface.  [decode] aborts the call on a text it cannot decode
    (a read outside its table or past the end of the text): that is the
    answer [None]. *)

Class Codec := {
  encode : list byte -> str;
  decode : str -> option (list byte);
  UTF8_encode : str -> bool -> list byte;
  UTF8_decode : list byte -> bool -> str
}.

(** What the token functions rely on: base64 decoding inverts encoding and
    never produces the separator; a null-terminated UTF-8 encoding of a
    string without NUL is its encoding followed by a zero byte, and the
    null-terminated decoding reads it back. *)
Class CodecLaws (c : Codec) : Prop := {
  decode_encode : forall bs, decode (encode bs) = Some bs;
  encode_no_dot : forall bs, ~ In DOT (encode bs);
  UTF8_encode_nt :
    forall s, nul_free s = true ->
              UTF8_encode s true = UTF8_encode s false ++ [x00];
  UTF8_roundtrip_nt :
    forall s, wf_str s = true -> nul_free s = true ->
              UTF8_decode (UTF8_encode s true) true = s
}.

(** [JSON.stringify] on a [JWTHeader], the only record index.ts serialises:
    one member, [alg], a JSON string.  Quotes and backslashes of the value
    are escaped. *)
Fixpoint json_escape (s : str) : str :=
  match s with
  | [] => []
  | c :: s' =>
      if (c =? QUOTE) || (c =? BACKSLASH) then BACKSLASH :: c :: json_escape s'
      else c :: json_escape s'
  end.

Definition JSON_stringify (h : JWTHeader) : str :=
  lit "{" ++ [QUOTE] ++ lit "alg" ++ [QUOTE] ++ lit ":" ++
  [QUOTE] ++ json_escape (alg h) ++ [QUOTE] ++ lit "}".

(* ================================================================== *)
(** ** Programs over the collaborators' calls *)

Section Programs.

(** The objects of the [Wallet] class. *)
Variable W : Type.

(** One constructor per call index.ts makes.  A method of [Wallet] mutates
    its receiver, so it answers with the receiver after the call.  [abort]
    is the end of a call that traps: nothing of the entry point runs after
    it. *)
Inductive Eff : Type -> Type :=
| Wallet_load : Eff (option W)
| Wallet_new : Eff W
| Wallet_create (w : W) (name : str) : Eff W
| Wallet_save (w : W) : Eff unit
| Wallet_generateKey (w : W) (description algorithm : str) : Eff (bool * W)
| Wallet_removeKey (w : W) (keyId : str) : Eff (bool * W)
| Wallet_importKey (w : W) (description format keyData algorithm : str)
    (extractable : bool) (usages : list str) : Eff (bool * W)
| Wallet_listKeys (w : W) (user : str) : Eff W
| Wallet_addUser (w : W) (userId role : str) (force : bool) : Eff (bool * W)
| Wallet_removeUser (w : W) (userId : str) : Eff (bool * W)
| Wallet_sign (w : W) (keyId payload : str) : Eff (option str * W)
| Wallet_verify (w : W) (keyId payload signature : str) : Eff (bool * W)
| emit (msg : str) : Eff unit
| revert (msg : str) : Eff unit
| abort : Eff unit.

Inductive Prog (A : Type) : Type :=
| Ret (a : A)
| Vis (X : Type) (e : Eff X) (k : X -> Prog A).

Arguments Ret {A} a.
Arguments Vis {A X} e k.

Fixpoint bind {A B : Type} (p : Prog A) (f : A -> Prog B) : Prog B :=
  match p with
  | Ret a => f a
  | Vis e k => Vis e (fun x => bind (k x) f)
  end.

Definition call {X : Type} (e : Eff X) : Prog X := Vis e (fun x => Ret x).

End Programs.

Arguments Ret {W A} a.
Arguments Vis {W A X} e k.
Arguments Wallet_load {W}.
Arguments Wallet_new {W}.
Arguments emit {W} msg.
Arguments revert {W} msg.
Arguments abort {W}.

Declare Scope prog_scope.
Delimit Scope prog_scope with prog.
Notation "x <- c ;; k" := (bind c (fun x => k))
  (at level 61, c at next level, right associativity) : prog_scope.
Notation "' pat <- c ;; k" := (bind c (fun x => match x with pat => k end))
  (at level 61, pat pattern, c at next level, right associativity) : prog_scope.
Notation "c ;;; k" := (bind c (fun _ => k))
  (at level 61, right associativity) : prog_scope.
Local Open Scope prog_scope.

(* ================================================================== *)
(** ** The entry points of index.ts *)

Section EntryPoints.

Context {codec : Codec}.
Variable W : Type.

Definition generateKey (input : GenerateKeyInput) : Prog W unit :=
  wallet <- call Wallet_load ;;
  match wallet with
  | None => Ret tt
  | Some wallet =>
      '(ok, wallet) <- call (Wallet_generateKey wallet (gk_description input)
                                                (gk_algorithm input)) ;;
      if ok then (call (Wallet_save wallet) ;;; Ret tt) else Ret tt
  end.

Definition removeKey (input : RemoveKeyInput) : Prog W unit :=
  wallet <- call Wallet_load ;;
  match wallet with
  | None => Ret tt
  | Some wallet =>
      '(ok, wallet) <- call (Wallet_removeKey wallet (rk_keyId input)) ;;
      if ok then (call (Wallet_save wallet) ;;; Ret tt) else Ret tt
  end.

(** The result of [wallet.importKey] is not looked at. *)
Definition importKey (input : ImportKeyInput) : Prog W unit :=
  wallet <- call Wallet_load ;;
  match wallet with
  | None => Ret tt
  | Some wallet =>
      '(_, wallet) <- call (Wallet_importKey wallet (ik_description input)
                              (format (ik_key input)) (keyData (ik_key input))
                              (algorithm (ik_key input))
                              (extractable (ik_key input))
                              (usages (ik_key input))) ;;
      call (Wallet_save wallet) ;;; Ret tt
  end.

Definition listKeys (input : ListKeysInput) : Prog W unit :=
  wallet <- call Wallet_load ;;
  match wallet with
  | None => Ret tt
  | Some wallet => call (Wallet_listKeys wallet (lk_user input)) ;;; Ret tt
  end.

Definition addUser (input : AddUserInput) : Prog W unit :=
  wallet <- call Wallet_load ;;
  match wallet with
  | None => Ret tt
  | Some wallet =>
      '(ok, wallet) <- call (Wallet_addUser wallet (au_userId input)
                                            (au_role input) false) ;;
      if ok then (call (Wallet_save wallet) ;;; Ret tt) else Ret tt
  end.

Definition removeUser (input : RemoveUserInput) : Prog W unit :=
  wallet <- call Wallet_load ;;
  match wallet with
  | None => Ret tt
  | Some wallet =>
      '(ok, wallet) <- call (Wallet_removeUser wallet (ru_userId input)) ;;
      if ok then (call (Wallet_save wallet) ;;; Ret tt) else Ret tt
  end.

Definition createWallet (input : CreateWalletInput) : Prog W unit :=
  existingWallet <- call Wallet_load ;;
  match existingWallet with
  | Some _ => call (revert (lit "Wallet does already exists.")) ;;; Ret tt
  | None =>
      wallet <- call Wallet_new ;;
      wallet <- call (Wallet_create wallet (cw_name input)) ;;
      call (Wallet_save wallet) ;;; Ret tt
  end.

Definition generateJWT (input : JWTGenerateInput) : Prog W unit :=
  wallet <- call Wallet_load ;;
  match wallet with
  | None => Ret tt
  | Some wallet =>
      let header := {| alg := lit "ECDSA" |} in
      let h := UTF8_encode (JSON_stringify header) true in
      let headerB64 := encode h in
      let p := UTF8_encode (jg_payload input) true in
      let payloadB64 := encode p in
      let jwtPayload := headerB64 ++ lit "." ++ payloadB64 in
      call (emit (lit "Generating JWT: " ++ jwtPayload ++
                  lit " - with key: " ++ jg_keyId input)) ;;;
      '(jwtSignature, wallet) <-
         call (Wallet_sign wallet (jg_keyId input) jwtPayload) ;;
      match jwtSignature with
      | None => call (revert (lit "Failed to generate JWT")) ;;; Ret tt
      | Some jwtSignature =>
          let jwt := jwtPayload ++ lit "." ++ jwtSignature in
          call (emit (lit "JWT generated: " ++ jwt)) ;;; Ret tt
      end
  end.

Definition checkJWT (input : JWTCheckInput) : Prog W unit :=
  let items := split (jc_jwt input) DOT in
  match items with
  | [item0; item1; item2] =>
      wallet <- call Wallet_load ;;
      match wallet with
      | None => Ret tt
      | Some wallet =>
          match decode item0 with
          | None => call abort ;;; Ret tt
          | Some jwtHeaderU8 =>
              let jwtHeaderStr := UTF8_decode jwtHeaderU8 true in
              let jwtHeaderStr := replace jwtHeaderStr BACKSLASH [] in
              call (emit (lit "jwtHeaderStr: " ++ jwtHeaderStr)) ;;;
              match decode item1 with
              | None => call abort ;;; Ret tt
              | Some jwtPayloadU8 =>
                  let jwtPayloadStr := UTF8_decode jwtPayloadU8 true in
                  let jwtPayloadStr := replace jwtPayloadStr BACKSLASH [] in
                  call (emit (lit "jwtPayloadStr: " ++ jwtPayloadStr)) ;;;
                  '(ok, wallet) <- call (Wallet_verify wallet (jc_keyId input)
                                           (item0 ++ lit "." ++ item1) item2) ;;
                  if ok then call (emit (lit "Verification Successful")) ;;; Ret tt
                  else call (revert (lit "Invalid JWT signature")) ;;; Ret tt
              end
          end
      end
  | _ => call (revert (lit "Invalid JWT format")) ;;; Ret tt
  end.

End EntryPoints.

Arguments generateKey {W} input.
Arguments removeKey {W} input.
Arguments importKey {W} input.
Arguments listKeys {W} input.
Arguments addUser {W} input.
Arguments removeUser {W} input.
Arguments createWallet {W} input.
Arguments generateJWT {codec W} input.
Arguments checkJWT {codec W} input.

(* ================================================================== *)
(** ** Running a program

    A handler answers each call from a state of the host; [run] threads the
    state through a program and lists the calls made, each with its answer
    (the wallet object itself left out). *)

Inductive Call : Type :=
| CLoad (found : bool)
| CNew
| CCreate (name : str)
| CSave
| CGenerateKey (description algorithm : str) (ok : bool)
| CRemoveKey (keyId : str) (ok : bool)
| CImportKey (description format keyData algorithm : str)
    (extractable : bool) (usages : list str) (ok : bool)
| CListKeys (user : str)
| CAddUser (userId role : str) (force ok : bool)
| CRemoveUser (userId : str) (ok : bool)
| CSign (keyId payload : str) (signature : option str)
| CVerify (keyId payload signature : str) (ok : bool)
| CEmit (msg : str)
| CRevert (msg : str)
| CAbort.

Definition call_of {W X : Type} (e : Eff W X) : X -> Call :=
  match e in Eff _ X return X -> Call with
  | Wallet_load => fun r => CLoad (match r with Some _ => true | None => false end)
  | Wallet_new => fun _ => CNew
  | Wallet_create _ name => fun _ => CCreate name
  | Wallet_save _ => fun _ => CSave
  | Wallet_generateKey _ d a => fun r => CGenerateKey d a (fst r)
  | Wallet_removeKey _ k => fun r => CRemoveKey k (fst r)
  | Wallet_importKey _ d f kd a x u => fun r => CImportKey d f kd a x u (fst r)
  | Wallet_listKeys _ u => fun _ => CListKeys u
  | Wallet_addUser _ u r f => fun x => CAddUser u r f (fst x)
  | Wallet_removeUser _ u => fun r => CRemoveUser u (fst r)
  | Wallet_sign _ k p => fun r => CSign k p (fst r)
  | Wallet_verify _ k p sg => fun r => CVerify k p sg (fst r)
  | emit m => fun _ => CEmit m
  | revert m => fun _ => CRevert m
  | abort => fun _ => CAbort
  end.

Definition Handler (W S : Type) : Type := forall X : Type, Eff W X -> S -> X * S.

Record Run (S A : Type) : Type := {
  result : A;
  final : S;
  trace : list Call
}.

Fixpoint run {W S A : Type} (h : Handler W S) (p : Prog W A) (s : S) : Run S A :=
  match p with
  | Ret a => {| result := a; final := s; trace := [] |}
  | Vis e k =>
      let r := h _ e s in
      let r' := run h (k (fst r)) (snd r) in
      {| result := result r'; final := final r';
         trace := call_of e (fst r) :: trace r' |}
  end.

(** What a caller observes of a run: the messages of the [revert] calls and
    whether the success event of [checkJWT] was emitted. *)
Definition reverts (t : list Call) : list str :=
  flat_map (fun c => match c with CRevert m => [m] | _ => [] end) t.

Definition emits (t : list Call) : list str :=
  flat_map (fun c => match c with CEmit m => [m] | _ => [] end) t.

Definition saved (t : list Call) : bool :=
  existsb (fun c => match c with CSave => true | _ => false end) t.

Definition accepted (t : list Call) : bool :=
  existsb (str_eqb (lit "Verification Successful")) (emits t).

(** The answer the wallet's [verify] gave in a run, if it was asked. *)
Fixpoint verify_answer (t : list Call) : option bool :=
  match t with
  | [] => None
  | CVerify _ _ _ ok :: _ => Some ok
  | _ :: t' => verify_answer t'
  end.

(* ================================================================== *)
(** ** The wallet aggregate

    The [Wallet] class (wallet/wallet.ts) and [emit]/[revert]
    (klave/types.ts) are used by index.ts but their code is not part of
    what is embedded here; this section follows the specification. *)

(** Modelled from the spec: the crypto provider, an external collaborator
    that hands out key identifiers and handles and signs and verifies byte
    strings with a handle.  Its own state (key material, randomness) is the
    type [C]. *)
Record CryptoProvider (C : Type) : Type := {
  cp_generateKeyPair : str -> C -> option (str * str) * C;
  cp_importKey : str -> list byte -> str -> bool -> list str -> C ->
                 option (str * str) * C;
  cp_sign : str -> list byte -> option (list byte);
  cp_verify : str -> list byte -> list byte -> bool
}.

(** Modelled from the spec: the roles of a user record. *)
Inductive Role : Type := Admin | User.

(** Modelled from the spec: a key record, with the handle of the key
    material held by the provider. *)
Record KeyRecord : Type := {
  kr_keyId : str;
  kr_description : str;
  kr_algorithm : str;
  kr_extractable : bool;
  kr_usages : list str;
  kr_handle : str
}.

(** Modelled from the spec: a user record. *)
Record UserRecord : Type := { ur_userId : str; ur_role : Role }.

(** Modelled from the spec: the wallet, a name with its key records and
    its user records. *)
Record Wallet : Type := {
  name : str;
  keys : list KeyRecord;
  users : list UserRecord
}.

(** Modelled from the spec: what reaches the observability sink, an
    emitted message or the message of an abort. *)
Inductive Note : Type := Emitted (msg : str) | Reverted (msg : str).

(** Modelled from the spec: the host, that is, the persisted wallet slot,
    the provider's state and what was sent to the sink, latest last. *)
Record Host (C : Type) : Type := {
  ledger : option Wallet;
  crypto : C;
  notes : list Note
}.

Arguments ledger {C} _.
Arguments crypto {C} _.
Arguments notes {C} _.

Definition find_key (keyId : str) (w : Wallet) : option KeyRecord :=
  find (fun k => str_eqb (kr_keyId k) keyId) (keys w).

Definition has_key (keyId : str) (w : Wallet) : bool :=
  match find_key keyId w with Some _ => true | None => false end.

Definition find_user (userId : str) (w : Wallet) : option UserRecord :=
  find (fun u => str_eqb (ur_userId u) userId) (users w).

Definition admins (w : Wallet) : list UserRecord :=
  filter (fun u => match ur_role u with Admin => true | User => false end) (users w).

(** Modelled from the spec: the role names, the closed set of algorithms
    and the key formats. *)
Definition parse_role (role : str) : option Role :=
  if str_eqb role (lit "admin") then Some Admin
  else if str_eqb role (lit "user") then Some User
  else None.

Definition known_algorithm (a : str) : bool :=
  existsb (str_eqb a) [lit "ECDSA"; lit "AES-GCM"; lit "RSA-PSS"].

Definition known_format (f : str) : bool :=
  existsb (str_eqb f) [lit "raw"; lit "spki"; lit "pkcs8"; lit "jwk"].

Section SpecWallet.

Context {codec : Codec}.
Variable C : Type.
Variable cp : CryptoProvider C.

(** How a key record is shown by [listKeys] and which records count as a
    user's: neither is fixed by the specification. *)
Variable render_key : KeyRecord -> str.
Variable attributed : str -> KeyRecord -> bool.

(** Modelled from the spec: [Wallet.load] of wallet/wallet.ts.  It
    returns the persisted wallet, or null when the slot is empty. *)
Definition load (s : Host C) : option Wallet := ledger s.

(** Modelled from the spec: [Wallet.save] of wallet/wallet.ts.  It writes
    the whole aggregate (name, key records, user records) to the slot. *)
Definition save (w : Wallet) (s : Host C) : Host C :=
  {| ledger := Some w; crypto := crypto s; notes := notes s |}.

(** Modelled from the spec: the constructor of [Wallet]; nothing is known
    of a wallet before [create]. *)
Definition new_Wallet : Wallet := {| name := []; keys := []; users := [] |}.

(** Modelled from the spec: [Wallet.create] of wallet/wallet.ts: an empty
    key store and an empty user store under the given name. *)
Definition create (w : Wallet) (n : str) : Wallet :=
  {| name := n; keys := []; users := [] |}.

Definition add_key (w : Wallet) (k : KeyRecord) : Wallet :=
  {| name := name w; keys := keys w ++ [k]; users := users w |}.

(** Modelled from the spec: [Wallet.generateKey] of wallet/wallet.ts.  The
    algorithm is checked against the closed set, the provider makes the
    key pair, and on success a record is inserted; otherwise no change. *)
Definition wallet_generateKey (w : Wallet) (description algorithm : str)
           (c : C) : bool * Wallet * C :=
  if known_algorithm algorithm then
    match cp_generateKeyPair cp algorithm c with
    | (Some (id, hd), c') =>
        (true,
         add_key w {| kr_keyId := id; kr_description := description;
                      kr_algorithm := algorithm; kr_extractable := false;
                      kr_usages := []; kr_handle := hd |},
         c')
    | (None, c') => (false, w, c')
    end
  else (false, w, c).

(** Modelled from the spec: [Wallet.importKey] of wallet/wallet.ts.  The
    format is checked against raw, spki, pkcs8 and jwk, the key data is
    base64-decoded (a failure of the decoding is a failure of the import)
    and handed to the provider; on success a record is inserted, on failure
    the wallet is left as it was. *)
Definition wallet_importKey (w : Wallet) (description fmt keyData algorithm : str)
           (extractable : bool) (usages : list str) (c : C)
  : bool * Wallet * C :=
  if known_format fmt then
    match decode keyData with
    | None => (false, w, c)
    | Some bytes =>
        match cp_importKey cp fmt bytes algorithm extractable usages c with
        | (Some (id, hd), c') =>
            (true,
             add_key w {| kr_keyId := id; kr_description := description;
                          kr_algorithm := algorithm; kr_extractable := extractable;
                          kr_usages := usages; kr_handle := hd |},
             c')
        | (None, c') => (false, w, c')
        end
    end
  else (false, w, c).

(** Modelled from the spec: [Wallet.removeKey] of wallet/wallet.ts: if the
    key is present its record is deleted and the result is success; if it
    is absent the result is failure and nothing changes. *)
Definition wallet_removeKey (w : Wallet) (keyId : str) : bool * Wallet :=
  if has_key keyId w then
    (true,
     {| name := name w;
        keys := filter (fun k => negb (str_eqb (kr_keyId k) keyId)) (keys w);
        users := users w |})
  else (false, w).

(** Modelled from the spec: [Wallet.listKeys] of wallet/wallet.ts: read
    only; with an empty user every record is shown, otherwise the records
    attributed to that user. *)
Definition wallet_listKeys (w : Wallet) (user : str) : list Note :=
  map (fun k => Emitted (render_key k))
      (match user with
       | [] => keys w
       | _ => filter (attributed user) (keys w)
       end).

(** Modelled from the spec: [Wallet.addUser] of wallet/wallet.ts: failure
    if the user is already present or the role is neither admin nor user;
    otherwise the record is inserted. *)
Definition wallet_addUser (w : Wallet) (userId role : str) (force : bool)
  : bool * Wallet :=
  match parse_role role, find_user userId w with
  | Some r, None =>
      (true,
       {| name := name w; keys := keys w;
          users := users w ++ [{| ur_userId := userId; ur_role := r |}] |})
  | _, _ => (false, w)
  end.

(** Modelled from the spec: [Wallet.removeUser] of wallet/wallet.ts:
    failure if the user is absent or is the only admin left; otherwise the
    record is removed. *)
Definition wallet_removeUser (w : Wallet) (userId : str) : bool * Wallet :=
  match find_user userId w with
  | None => (false, w)
  | Some u =>
      match ur_role u, admins w with
      | Admin, [_] => (false, w)
      | _, _ =>
          (true,
           {| name := name w; keys := keys w;
              users := filter (fun v => negb (str_eqb (ur_userId v) userId))
                              (users w) |})
      end
  end.

(** Modelled from the spec: [Wallet.sign] of wallet/wallet.ts: the key's
    handle signs the bytes of the payload; the answer is the base64 text of
    the signature (the third segment of a token), or null for an unknown
    key or a provider failure. *)
Definition wallet_sign (w : Wallet) (keyId payload : str) : option str :=
  match find_key keyId w with
  | None => None
  | Some k =>
      option_map encode (cp_sign cp (kr_handle k) (UTF8_encode payload false))
  end.

(** Modelled from the spec: [Wallet.verify] of wallet/wallet.ts: the key's
    handle verifies the decoded signature over the bytes of the payload;
    false for an unknown key or a signature text that does not decode. *)
Definition wallet_verify (w : Wallet) (keyId payload signature : str) : bool :=
  match find_key keyId w with
  | None => false
  | Some k =>
      match decode signature with
      | None => false
      | Some sg => cp_verify cp (kr_handle k) (UTF8_encode payload false) sg
      end
  end.

(** Modelled from the spec: [emit] and [revert] of klave/types.ts: a
    message to the observability sink, and the message of an abort;
    neither touches the ledger, and neither does a call that traps. *)
Definition note (n : Note) (s : Host C) : Host C :=
  {| ledger := ledger s; crypto := crypto s; notes := notes s ++ [n] |}.

Definition with_crypto (c : C) (s : Host C) : Host C :=
  {| ledger := ledger s; crypto := c; notes := notes s |}.

(** The calls of index.ts answered by the definitions above. *)
Definition spec_handler : Handler Wallet (Host C) :=
  fun X e s =>
    match e in Eff _ X return X * Host C with
    | Wallet_load => (load s, s)
    | Wallet_new => (new_Wallet, s)
    | Wallet_create w n => (create w n, s)
    | Wallet_save w => (tt, save w s)
    | Wallet_generateKey w d a =>
        let '(ok, w', c') := wallet_generateKey w d a (crypto s) in
        ((ok, w'), with_crypto c' s)
    | Wallet_removeKey w k => (wallet_removeKey w k, s)
    | Wallet_importKey w d f kd a x u =>
        let '(ok, w', c') := wallet_importKey w d f kd a x u (crypto s) in
        ((ok, w'), with_crypto c' s)
    | Wallet_listKeys w u =>
        (w, {| ledger := ledger s; crypto := crypto s;
               notes := notes s ++ wallet_listKeys w u |})
    | Wallet_addUser w u r f => (wallet_addUser w u r f, s)
    | Wallet_removeUser w u => (wallet_removeUser w u, s)
    | Wallet_sign w k p => ((wallet_sign w k p, w), s)
    | Wallet_verify w k p sg => ((wallet_verify w k p sg, w), s)
    | emit m => (tt, note (Emitted m) s)
    | revert m => (tt, note (Reverted m) s)
    | abort => (tt, s)
    end.

End SpecWallet.

(* ================================================================== *)
(** ** What the token functions compute and what a run shows *)

(** The two base64 segments [generateJWT] builds, and the text it signs. *)
Definition header_segment {codec : Codec} : str :=
  encode (UTF8_encode (JSON_stringify {| alg := lit "ECDSA" |}) true).

Definition payload_segment {codec : Codec} (payload : str) : str :=
  encode (UTF8_encode payload true).

Definition signing_input {codec : Codec} (payload : str) : str :=
  header_segment ++ lit "." ++ payload_segment payload.

(** The JSON text of a header whose algorithm is ECDSA. *)
Definition ecdsa_header_json : str :=
  lit "{" ++ [QUOTE] ++ lit "alg" ++ [QUOTE] ++ lit ":" ++
  [QUOTE] ++ lit "ECDSA" ++ [QUOTE] ++ lit "}".

(** The text [checkJWT] shows for the decoded bytes of a segment: read as
    null-terminated UTF-8, the first backslash removed. *)
Definition shown_text {codec : Codec} (bytes : list byte) : str :=
  replace (UTF8_decode bytes true) BACKSLASH [].

(** A segment decoded from base64 and read as UTF-8; nothing if the base64
    decoding aborts. *)
Definition decode_text {codec : Codec} (item : str) (nullTerminated : bool)
  : option str :=
  option_map (fun bytes => UTF8_decode bytes nullTerminated) (decode item).

Fixpoint strip_prefix (prefix s : str) : option str :=
  match prefix, s with
  | [], _ => Some s
  | c :: prefix', d :: s' => if c =? d then strip_prefix prefix' s' else None
  | _ :: _, [] => None
  end.

(** The token a run of [generateJWT] emitted: the text after the label of
    its last message. *)
Definition emitted_token (t : list Call) : option str :=
  match last t CNew with
  | CEmit m => strip_prefix (lit "JWT generated: ") m
  | _ => None
  end.

(** The calls a run of [importKey] can make. *)
Inductive importKey_calls (input : ImportKeyInput) : list Call -> Prop :=
| imp_no_wallet : importKey_calls input [CLoad false]
| imp_saved ok :
    importKey_calls input
      [CLoad true;
       CImportKey (ik_description input) (format (ik_key input))
                  (keyData (ik_key input)) (algorithm (ik_key input))
                  (extractable (ik_key input)) (usages (ik_key input)) ok;
       CSave].

(** The calls a run of [generateJWT] can make. *)
Inductive generateJWT_calls {codec : Codec} (input : JWTGenerateInput)
  : list Call -> Prop :=
| gen_no_wallet : generateJWT_calls input [CLoad false]
| gen_not_signed :
    generateJWT_calls input
      [CLoad true;
       CEmit (lit "Generating JWT: " ++ signing_input (jg_payload input) ++
              lit " - with key: " ++ jg_keyId input);
       CSign (jg_keyId input) (signing_input (jg_payload input)) None;
       CRevert (lit "Failed to generate JWT")]
| gen_signed sg :
    generateJWT_calls input
      [CLoad true;
       CEmit (lit "Generating JWT: " ++ signing_input (jg_payload input) ++
              lit " - with key: " ++ jg_keyId input);
       CSign (jg_keyId input) (signing_input (jg_payload input)) (Some sg);
       CEmit (lit "JWT generated: " ++
              signing_input (jg_payload input) ++ lit "." ++ sg)].

(** The calls a run of [checkJWT] can make. *)
Inductive checkJWT_calls {codec : Codec} (input : JWTCheckInput)
  : list Call -> Prop :=
| chk_format :
    List.length (split (jc_jwt input) DOT) <> 3%nat ->
    checkJWT_calls input [CRevert (lit "Invalid JWT format")]
| chk_no_wallet a b c :
    split (jc_jwt input) DOT = [a; b; c] ->
    checkJWT_calls input [CLoad false]
| chk_header_aborts a b c :
    split (jc_jwt input) DOT = [a; b; c] ->
    decode a = None ->
    checkJWT_calls input [CLoad true; CAbort]
| chk_payload_aborts a b c header :
    split (jc_jwt input) DOT = [a; b; c] ->
    decode a = Some header ->
    decode b = None ->
    checkJWT_calls input
      [CLoad true; CEmit (lit "jwtHeaderStr: " ++ shown_text header); CAbort]
| chk_verified a b c header payload ok :
    split (jc_jwt input) DOT = [a; b; c] ->
    decode a = Some header ->
    decode b = Some payload ->
    checkJWT_calls input
      [CLoad true;
       CEmit (lit "jwtHeaderStr: " ++ shown_text header);
       CEmit (lit "jwtPayloadStr: " ++ shown_text payload);
       CVerify (jc_keyId input) (a ++ lit "." ++ b) c ok;
       if ok then CEmit (lit "Verification Successful")
       else CRevert (lit "Invalid JWT signature")].

(** The calls of a run of [checkJWT] that reaches the wallet's [verify],
    for the segments, their decoded bytes and the answer of [verify]. *)
Definition verified_calls {codec : Codec} (keyId a b c : str)
           (header payload : list byte) (ok : bool) : list Call :=
  [CLoad true;
   CEmit (lit "jwtHeaderStr: " ++ shown_text header);
   CEmit (lit "jwtPayloadStr: " ++ shown_text payload);
   CVerify keyId (a ++ lit "." ++ b) c ok;
   if ok then CEmit (lit "Verification Successful")
   else CRevert (lit "Invalid JWT signature")].

(** What the wallet's [verify] answers when [checkJWT] asks it, that is,
    after the load and the two messages, about the raw segments. *)
Definition verify_reply {codec : Codec} {W S : Type} (h : Handler W S) (s : S)
           (w : W) (keyId a b c : str) (header payload : list byte) : bool :=
  let s1 := snd (h _ Wallet_load s) in
  let s2 := snd (h _ (emit (lit "jwtHeaderStr: " ++ shown_text header)) s1) in
  let s3 := snd (h _ (emit (lit "jwtPayloadStr: " ++ shown_text payload)) s2) in
  fst (fst (h _ (Wallet_verify w keyId (a ++ lit "." ++ b) c) s3)).

(** The outcome of [checkJWT] as a function of the token and of the answer
    of the wallet's [verify] (none when it was not asked): the messages of
    the aborts and whether the success event was emitted. *)
Definition verdict (jwt : str) (answer : option bool) : list str * bool :=
  match split jwt DOT with
  | [_; _; _] =>
      match answer with
      | Some true => ([], true)
      | Some false => ([lit "Invalid JWT signature"], false)
      | None => ([], false)
      end
  | _ => ([lit "Invalid JWT format"], false)
  end.

(* ================================================================== *)
(** ** A reference codec

    The usual base64 (alphabet A-Z a-z 0-9 + /, padded with =) and the
    UTF-8 coding of UTF-16 strings, written with division where an
    implementation shifts and masks.  The decoder works as that of
    as-base64 does: it reads the text four characters at a time through a
    table of values, takes the padding from the end of the text only, and
    aborts on a read outside the table or past the end of the text.  It
    instantiates [Codec] where a statement is evaluated on concrete
    inputs. *)

Module Reference.

Definition B (n : N) : byte :=
  match Byte.of_N n with Some b => b | None => x00 end.

Definition ALPHA : str :=
  lit "ABCDEFGHIJKLMNOPQRSTUVWXYZabcdefghijklmnopqrstuvwxyz0123456789+/".
Definition PADCHAR : char := 61.

Definition alpha (i : N) : char := nth (N.to_nat i) ALPHA PADCHAR.

Fixpoint index_of (c : char) (l : str) : N :=
  match l with
  | [] => 0
  | x :: l' => if x =? c then 0 else 1 + index_of c l'
  end.

Definition value (c : char) : N := index_of c ALPHA mod 64.

Fixpoint b64_encode (bs : list byte) : str :=
  match bs with
  | [] => []
  | [a] =>
      let n := Byte.to_N a * 65536 in
      [alpha (n / 262144); alpha ((n / 4096) mod 64); PADCHAR; PADCHAR]
  | [a; b] =>
      let n := Byte.to_N a * 65536 + Byte.to_N b * 256 in
      [alpha (n / 262144); alpha ((n / 4096) mod 64);
       alpha ((n / 64) mod 64); PADCHAR]
  | a :: b :: c :: rest =>
      let n := Byte.to_N a * 65536 + Byte.to_N b * 256 + Byte.to_N c in
      alpha (n / 262144) :: alpha ((n / 4096) mod 64) ::
      alpha ((n / 64) mod 64) :: alpha (n mod 64) :: b64_encode rest
  end.

(** The table of the decoder: a code unit up to that of z has an entry,
    the value of the letter, or 0 for any other character (the padding
    character among them); a read outside the table aborts. *)
Definition table (c : char) : option N :=
  if c <=? 122 then Some (value c) else None.

(** Four characters of the text, as a number of 24 bits. *)
Definition quantum (c1 c2 c3 c4 : char) : option N :=
  match table c1, table c2, table c3, table c4 with
  | Some v1, Some v2, Some v3, Some v4 =>
      Some (v1 * 262144 + v2 * 4096 + v3 * 64 + v4)
  | _, _, _, _ => None
  end.

(** The last four characters of the text: ending in one padding character
    they give two bytes, in two of them one byte (the padding is not looked
    up), otherwise three. *)
Definition last_quantum (c1 c2 c3 c4 : char) : option (list byte) :=
  if c4 =? PADCHAR then
    if c3 =? PADCHAR then
      match table c1, table c2 with
      | Some v1, Some v2 =>
          let n := v1 * 262144 + v2 * 4096 in Some [B (n / 65536)]
      | _, _ => None
      end
    else
      match table c1, table c2, table c3 with
      | Some v1, Some v2, Some v3 =>
          let n := v1 * 262144 + v2 * 4096 + v3 * 64 in
          Some [B (n / 65536); B ((n / 256) mod 256)]
      | _, _, _ => None
      end
  else
    match quantum c1 c2 c3 c4 with
    | Some n => Some [B (n / 65536); B ((n / 256) mod 256); B (n mod 256)]
    | None => None
    end.

(** The empty text decodes to no byte.  A text whose length is not a
    multiple of four is read past its end, which aborts. *)
Fixpoint b64_decode (s : str) : option (list byte) :=
  match s with
  | [] => Some []
  | c1 :: c2 :: c3 :: c4 :: rest =>
      match rest with
      | [] => last_quantum c1 c2 c3 c4
      | _ :: _ =>
          match quantum c1 c2 c3 c4, b64_decode rest with
          | Some n, Some bytes =>
              Some (B (n / 65536) :: B ((n / 256) mod 256) :: B (n mod 256)
                      :: bytes)
          | _, _ => None
          end
      end
  | _ => None
  end.

Definition is_high (c : char) : bool := (55296 <=? c) && (c <? 56320).
Definition is_low (c : char) : bool := (56320 <=? c) && (c <? 57344).

Definition utf8_3 (c : N) : list byte :=
  [B (224 + c / 4096); B (128 + (c / 64) mod 64); B (128 + c mod 64)].

Definition utf8_4 (u : N) : list byte :=
  [B (240 + u / 262144); B (128 + (u / 4096) mod 64);
   B (128 + (u / 64) mod 64); B (128 + u mod 64)].

Fixpoint utf8 (s : str) : list byte :=
  match s with
  | [] => []
  | c1 :: s' =>
      if c1 <? 128 then B c1 :: utf8 s'
      else if c1 <? 2048 then B (192 + c1 / 64) :: B (128 + c1 mod 64) :: utf8 s'
      else
        match s' with
        | c2 :: s'' =>
            if is_high c1 && is_low c2
            then utf8_4 (65536 + (c1 - 55296) * 1024 + (c2 - 56320)) ++ utf8 s''
            else utf8_3 c1 ++ utf8 s'
        | [] => utf8_3 c1
        end
  end.

Fixpoint before_nul (s : str) : str :=
  match s with
  | [] => []
  | c :: s' => if c =? NUL then [] else c :: before_nul s'
  end.

(** With [nullTerminated] the coding stops at the first NUL of the string
    and a zero byte is appended. *)
Definition utf8_encode (s : str) (nullTerminated : bool) : list byte :=
  if nullTerminated then utf8 (before_nul s) ++ [x00] else utf8 s.

Definition units (u : N) (rest : str) : str :=
  if u <? 65536 then u :: rest
  else (55296 + (u - 65536) / 1024) :: (56320 + (u - 65536) mod 1024) :: rest.

(** With [nullTerminated] the decoding stops at a zero lead byte. *)
Fixpoint utf8_decode (bs : list byte) (nullTerminated : bool) : str :=
  match bs with
  | [] => []
  | b0 :: r0 =>
      let u0 := Byte.to_N b0 in
      if u0 <? 128 then
        if nullTerminated && (u0 =? 0) then []
        else u0 :: utf8_decode r0 nullTerminated
      else
        match r0 with
        | [] => []
        | b1 :: r1 =>
            let u1 := Byte.to_N b1 mod 64 in
            if (192 <=? u0) && (u0 <? 224)
            then (u0 mod 32 * 64 + u1) :: utf8_decode r1 nullTerminated
            else
              match r1 with
              | [] => []
              | b2 :: r2 =>
                  let u2 := Byte.to_N b2 mod 64 in
                  if (224 <=? u0) && (u0 <? 240)
                  then units (u0 mod 16 * 4096 + u1 * 64 + u2)
                             (utf8_decode r2 nullTerminated)
                  else
                    match r2 with
                    | [] => []
                    | b3 :: r3 =>
                        units (u0 mod 8 * 262144 + u1 * 4096 + u2 * 64
                               + Byte.to_N b3 mod 64)
                              (utf8_decode r3 nullTerminated)
                    end
              end
        end
  end.

#[export] Instance codec : Codec := {|
  encode := b64_encode;
  decode := b64_decode;
  UTF8_encode := utf8_encode;
  UTF8_decode := utf8_decode
|}.

End Reference.

(* ================================================================== *)
(** ** A small concrete setting

    A toy provider and two hosts, on which the entry points are evaluated.
    A handle is a key name; the signature of a message is the handle's code
    units followed by the message reversed, and [verify] recomputes it. *)

Module Demo.

Definition bytes_eqb (a b : list byte) : bool :=
  if list_eq_dec Byte.byte_eq_dec a b then true else false.

Definition sign (hd : str) (msg : list byte) : option (list byte) :=
  if str_eqb hd (lit "broken") then None
  else Some (map Reference.B hd ++ rev msg).

Definition verify (hd : str) (msg sg : list byte) : bool :=
  match sign hd msg with
  | Some s => bytes_eqb s sg
  | None => false
  end.

Definition provider : CryptoProvider nat := {|
  cp_generateKeyPair := fun _ n => (Some (lit "generated", lit "generated"), S n);
  cp_importKey := fun _ bytes _ _ _ n =>
    match bytes with
    | [] => (None, n)
    | _ => (Some (lit "imported", lit "imported"), S n)
    end;
  cp_sign := sign;
  cp_verify := verify
|}.

Definition k1 : KeyRecord := {|
  kr_keyId := lit "k1"; kr_description := lit "signing key";
  kr_algorithm := lit "RSA-PSS"; kr_extractable := false;
  kr_usages := [lit "sign"; lit "verify"]; kr_handle := lit "h1"
|}.

Definition wallet : Wallet := {|
  name := lit "acme";
  keys := [k1];
  users := [{| ur_userId := lit "alice"; ur_role := Admin |}]
|}.

Definition host : Host nat := {| ledger := Some wallet; crypto := 0%nat; notes := [] |}.
Definition empty_host : Host nat := {| ledger := None; crypto := 0%nat; notes := [] |}.

Definition handler : Handler Wallet (Host nat) :=
  spec_handler (codec := Reference.codec) provider kr_keyId (fun _ _ => true).

(** A codec that decodes everything to nothing. *)
Definition blind_codec : Codec := {|
  encode := Reference.b64_encode;
  decode := fun _ => Some [];
  UTF8_encode := Reference.utf8_encode;
  UTF8_decode := fun _ _ => []
|}.

Definition hello_input : JWTGenerateInput :=
  {| jg_keyId := lit "k1"; jg_payload := lit "hello" |}.

Definition hello_signature : list byte :=
  map Reference.B (lit "h1") ++
  rev (UTF8_encode (Codec := Reference.codec)
         (signing_input (codec := Reference.codec) (lit "hello")) false).

Definition hello_token : str :=
  signing_input (codec := Reference.codec) (lit "hello") ++ lit "." ++
  Reference.b64_encode hello_signature.

(** A token whose header names another algorithm, signed with k1. *)
Definition other_header : str :=
  Reference.b64_encode
    (Reference.utf8_encode
       (lit "{" ++ [QUOTE] ++ lit "alg" ++ [QUOTE] ++ lit ":" ++
        [QUOTE] ++ lit "none" ++ [QUOTE] ++ lit "}") true).

Definition other_token : str :=
  let signed := other_header ++ lit "." ++
                payload_segment (codec := Reference.codec) (lit "hello") in
  signed ++ lit "." ++
  Reference.b64_encode
    (map Reference.B (lit "h1") ++ rev (Reference.utf8_encode signed false)).

(** A token of three segments whose first two, of one character each, are
    not base64 texts, with the signature of k1 over them. *)
Definition undecodable_token : str :=
  lit "a.b." ++
  Reference.b64_encode
    (map Reference.B (lit "h1") ++ rev (Reference.utf8_encode (lit "a.b") false)).

(** A payload with a NUL in the middle. *)
Definition nul_payload : str := [97; NUL; 98].

Definition nul_input : JWTGenerateInput :=
  {| jg_keyId := lit "k1"; jg_payload := nul_payload |}.

(** An import the toy provider refuses: the key data decode to no bytes. *)
Definition refused_import : ImportKeyInput :=
  {| ik_description := lit "imported key";
     ik_key := {| format := lit "raw"; keyData := []; algorithm := lit "ECDSA";
                  extractable := false; usages := [lit "sign"] |} |}.

End Demo.

(* ================================================================== *)
(** ** Further notions about strings and runs *)

(** The items of a split put together again, the separator between them. *)
Fixpoint join (sep : char) (items : list str) : str :=
  match items with
  | [] => []
  | [item] => item
  | item :: rest => item ++ sep :: join sep rest
  end.

(** The calls that change the wallet or persist it. *)
Definition mutating (c : Call) : bool :=
  match c with
  | CCreate _ | CSave | CGenerateKey _ _ _ | CRemoveKey _ _
  | CImportKey _ _ _ _ _ _ _ | CAddUser _ _ _ _ | CRemoveUser _ _ => true
  | _ => false
  end.

(** A run that saved did so once, as its last call, and never aborted. *)
Definition save_is_final (t : list Call) : Prop :=
  saved t = false \/
  exists before, t = before ++ [CSave] /\ saved before = false /\ reverts t = [].

Module Samples.

Definition hello_check : JWTCheckInput :=
  {| jc_keyId := lit "k1"; jc_jwt := Demo.hello_token |}.

(** A token whose header segment decodes to a text with two backslashes
    (a, backslash, b, backslash, c) and whose signature is not k1's. *)
Definition slashed_header : str :=
  Reference.b64_encode
    (Reference.utf8_encode ([97; BACKSLASH; 98; BACKSLASH; 99]) true).

(** The token with the other header, checked with k1. *)
Definition other_check : JWTCheckInput :=
  {| jc_keyId := lit "k1"; jc_jwt := Demo.other_token |}.

(** The token whose segments are no base64 texts, checked with k1. *)
Definition undecodable_check : JWTCheckInput :=
  {| jc_keyId := lit "k1"; jc_jwt := Demo.undecodable_token |}.

(** The i-th segment of a token, and the bytes of a segment that decodes. *)
Definition segment (i : nat) (jwt : str) : str := nth i (split jwt DOT) [].

Definition decoded (item : str) : list byte :=
  match Reference.b64_decode item with
  | Some bytes => bytes
  | None => []
  end.

Definition slashed_check : JWTCheckInput :=
  {| jc_keyId := lit "k1";
     jc_jwt := slashed_header ++ lit "." ++
               payload_segment (codec := Reference.codec) (lit "hello") ++
               lit "." ++ lit "AAAA" |}.

End Samples.

(* ================================================================== *)
(** * Properties *)

(** ** The reference codec obeys the codec laws *)

Module ReferenceFacts.
Import Reference.

Ltac ndiv := zify; Z.to_euclidean_division_equations; lia.

Lemma to_N_B n : n < 256 -> Byte.to_N (B n) = n.
Proof.
  intros Hn. unfold B.
  destruct (Byte.of_N n) as [b|] eqn:E.
  - now apply Byte.to_of_N.
  - apply Byte.of_N_None_iff in E. lia.
Qed.

Lemma B_to_N b : B (Byte.to_N b) = b.
Proof. unfold B. now rewrite Byte.of_to_N. Qed.

Lemma B_eq n b : n = Byte.to_N b -> B n = b.
Proof. intros ->. apply B_to_N. Qed.

Lemma to_N_lt b : Byte.to_N b < 256.
Proof. pose proof (Byte.to_N_bounded b). lia. Qed.

Definition sextets : list N := map N.of_nat (seq 0 64).

Lemma in_sextets i : i < 64 -> In i sextets.
Proof.
  intros Hi. unfold sextets. apply in_map_iff.
  exists (N.to_nat i). split; [apply N2Nat.id|].
  apply in_seq. lia.
Qed.

Lemma alpha_table :
  forallb (fun i => (value (alpha i) =? i) && negb (alpha i =? PADCHAR)
                    && negb (alpha i =? DOT)) sextets = true.
Proof. vm_compute. reflexivity. Qed.

Lemma alpha_spec i :
  i < 64 -> value (alpha i) = i /\ alpha i <> PADCHAR /\ alpha i <> DOT.
Proof.
  intros Hi. pose proof alpha_table as T.
  rewrite forallb_forall in T. specialize (T i (in_sextets Hi)).
  apply andb_prop in T. destruct T as [T T3].
  apply andb_prop in T. destruct T as [T1 T2].
  apply N.eqb_eq in T1. apply negb_true_iff in T2, T3.
  apply N.eqb_neq in T2, T3. auto.
Qed.

Lemma list_ind3 (A : Type) (P : list A -> Prop) :
  P [] -> (forall a, P [a]) -> (forall a b, P [a; b]) ->
  (forall a b c l, P l -> P (a :: b :: c :: l)) ->
  forall l, P l.
Proof.
  intros H0 H1 H2 H3.
  fix IH 1. intros [|a [|b [|c l]]];
    [exact H0 | exact (H1 a) | exact (H2 a b) | exact (H3 a b c l (IH l))].
Qed.

Lemma alpha_in_table :
  forallb (fun i => alpha i <=? 122) sextets = true.
Proof. vm_compute. reflexivity. Qed.

Lemma table_alpha i : i < 64 -> table (alpha i) = Some i.
Proof.
  intros Hi. unfold table.
  pose proof alpha_in_table as T. rewrite forallb_forall in T.
  rewrite (T i (@in_sextets i Hi)).
  destruct (@alpha_spec i Hi) as (V & _). now rewrite V.
Qed.

Lemma b64_encode_cons a l : b64_encode (a :: l) <> [].
Proof. destruct l as [|b [|c l]]; discriminate. Qed.

Lemma b64_decode_encode bs : b64_decode (b64_encode bs) = Some bs.
Proof.
  induction bs as [|a|a b|a b c l IH] using list_ind3.
  - reflexivity.
  - pose proof (to_N_lt a) as Ha.
    cbn [b64_encode b64_decode]. unfold last_quantum.
    set (n := Byte.to_N a * 65536).
    assert (Hn : n < 16777216) by (subst n; lia).
    rewrite !N.eqb_refl.
    rewrite !table_alpha by ndiv.
    do 2 f_equal. apply B_eq. subst n. ndiv.
  - pose proof (to_N_lt a) as Ha. pose proof (to_N_lt b) as Hb.
    cbn [b64_encode b64_decode]. unfold last_quantum.
    set (n := Byte.to_N a * 65536 + Byte.to_N b * 256).
    assert (Hn : n < 16777216) by (subst n; lia).
    destruct (@alpha_spec ((n / 64) mod 64)) as (_ & P3 & _); [ndiv|].
    apply N.eqb_neq in P3. rewrite P3, N.eqb_refl.
    rewrite !table_alpha by ndiv.
    f_equal. repeat (f_equal; try (apply B_eq; subst n; ndiv)).
  - pose proof (to_N_lt a) as Ha. pose proof (to_N_lt b) as Hb.
    pose proof (to_N_lt c) as Hc.
    cbn [b64_encode b64_decode].
    set (n := Byte.to_N a * 65536 + Byte.to_N b * 256 + Byte.to_N c).
    assert (Hn : n < 16777216) by (subst n; lia).
    assert (Q : quantum (alpha (n / 262144)) (alpha ((n / 4096) mod 64))
                        (alpha ((n / 64) mod 64)) (alpha (n mod 64)) = Some n).
    { unfold quantum. rewrite !table_alpha by ndiv. f_equal. ndiv. }
    destruct l as [|x l'].
    + cbn [b64_encode]. unfold last_quantum.
      destruct (@alpha_spec (n mod 64)) as (_ & P4 & _); [ndiv|].
      apply N.eqb_neq in P4. rewrite P4, Q.
      f_equal. repeat (f_equal; try (apply B_eq; subst n; ndiv)).
    + destruct (b64_encode (x :: l')) as [|y rest] eqn:E.
      * now contradiction (@b64_encode_cons x l').
      * rewrite Q, IH.
        f_equal. repeat (f_equal; try (apply B_eq; subst n; ndiv)).
Qed.

Lemma b64_encode_no_dot bs : ~ In DOT (b64_encode bs).
Proof.
  assert (A : forall i, i mod 64 < 64) by (intros; ndiv).
  assert (Q : forall i, i < 64 -> DOT <> alpha i)
    by (intros i Hi E; destruct (alpha_spec Hi) as (_ & _ & D); congruence).
  induction bs as [|a|a b|a b c l IH] using list_ind3.
  - intros [].
  - pose proof (to_N_lt a) as Ha. cbn [b64_encode In].
    intros [E|[E|[E|[E|[]]]]]; try discriminate E;
      symmetry in E; revert E; apply Q; ndiv.
  - pose proof (to_N_lt a) as Ha. pose proof (to_N_lt b) as Hb.
    cbn [b64_encode In].
    intros [E|[E|[E|[E|[]]]]]; try discriminate E;
      symmetry in E; revert E; apply Q; ndiv.
  - pose proof (to_N_lt a) as Ha. pose proof (to_N_lt b) as Hb.
    pose proof (to_N_lt c) as Hc.
    cbn [b64_encode In].
    intros [E|[E|[E|[E|E]]]]; try (now apply IH);
      symmetry in E; revert E; apply Q; ndiv.
Qed.

Ltac ltb_true := apply N.ltb_lt; ndiv.
Ltac ltb_false := apply N.ltb_ge; ndiv.

Lemma decode_1 c r nt :
  c < 128 -> c <> 0 ->
  utf8_decode (B c :: r) nt = c :: utf8_decode r nt.
Proof.
  intros H1 H0. cbn [utf8_decode].
  rewrite to_N_B by lia.
  replace (c <? 128) with true by (symmetry; ltb_true).
  replace (c =? 0) with false by (symmetry; now apply N.eqb_neq).
  now rewrite andb_false_r.
Qed.

Lemma decode_2 c r nt :
  128 <= c -> c < 2048 ->
  utf8_decode (B (192 + c / 64) :: B (128 + c mod 64) :: r) nt
  = c :: utf8_decode r nt.
Proof.
  intros H1 H2. cbn [utf8_decode].
  rewrite !to_N_B by ndiv.
  replace (192 + c / 64 <? 128) with false by (symmetry; ltb_false).
  replace (192 <=? 192 + c / 64) with true by (symmetry; apply N.leb_le; ndiv).
  replace (192 + c / 64 <? 224) with true by (symmetry; ltb_true).
  cbn [andb]. f_equal. ndiv.
Qed.

Lemma decode_3 c r nt :
  2048 <= c -> c < 65536 ->
  utf8_decode (utf8_3 c ++ r) nt = c :: utf8_decode r nt.
Proof.
  intros H1 H2. unfold utf8_3. cbn [app utf8_decode].
  rewrite !to_N_B by ndiv.
  replace (224 + c / 4096 <? 128) with false by (symmetry; ltb_false).
  replace (192 <=? 224 + c / 4096) with true by (symmetry; apply N.leb_le; ndiv).
  replace (224 + c / 4096 <? 224) with false by (symmetry; ltb_false).
  replace (224 <=? 224 + c / 4096) with true by (symmetry; apply N.leb_le; ndiv).
  replace (224 + c / 4096 <? 240) with true by (symmetry; ltb_true).
  cbn [andb]. unfold units.
  match goal with |- (if ?x <? _ then _ else _) = _ =>
    replace x with c by ndiv end.
  replace (c <? 65536) with true by (symmetry; ltb_true).
  reflexivity.
Qed.

Lemma decode_4 u r nt :
  65536 <= u -> u < 1114112 ->
  utf8_decode (utf8_4 u ++ r) nt = units u (utf8_decode r nt).
Proof.
  intros H1 H2. unfold utf8_4. cbn [app utf8_decode].
  rewrite !to_N_B by ndiv.
  replace (240 + u / 262144 <? 128) with false by (symmetry; ltb_false).
  replace (240 + u / 262144 <? 224) with false by (symmetry; ltb_false).
  replace (240 + u / 262144 <? 240) with false by (symmetry; ltb_false).
  rewrite !andb_false_r. f_equal. ndiv.
Qed.

Lemma decode_end : utf8_decode [x00] true = [].
Proof. reflexivity. Qed.

Lemma before_nul_id s : nul_free s = true -> before_nul s = s.
Proof.
  induction s as [|c s IH]; cbn [nul_free forallb before_nul]; [reflexivity|].
  intros H. apply andb_prop in H. destruct H as [Hc Hs].
  apply negb_true_iff in Hc. rewrite Hc. f_equal. now apply IH.
Qed.

Lemma utf8_roundtrip_aux n : forall s,
  (List.length s <= n)%nat -> wf_str s = true -> nul_free s = true ->
  utf8_decode (utf8 s ++ [x00]) true = s.
Proof.
  induction n as [|n IH]; intros [|c1 s'] Hlen Hwf Hnf;
    try reflexivity; cbn [List.length] in Hlen; [lia|].
  cbn [wf_str nul_free forallb] in Hwf, Hnf.
  apply andb_prop in Hwf, Hnf. destruct Hwf as [Hc1 Hwf], Hnf as [Hz1 Hnf].
  apply N.ltb_lt in Hc1. apply negb_true_iff, N.eqb_neq in Hz1.
  unfold NUL in Hz1.
  assert (IH1 : utf8_decode (utf8 s' ++ [x00]) true = s')
    by (apply IH; [lia | assumption | assumption]).
  cbn [utf8].
  destruct (N.ltb_spec c1 128) as [L1|L1].
  { cbn [app]. rewrite decode_1 by assumption. now rewrite IH1. }
  destruct (N.ltb_spec c1 2048) as [L2|L2].
  { cbn [app]. rewrite decode_2 by assumption. now rewrite IH1. }
  destruct s' as [|c2 s''].
  { rewrite decode_3 by assumption. now rewrite decode_end. }
  destruct (is_high c1 && is_low c2) eqn:Hs.
  - apply andb_prop in Hs. destruct Hs as [Hh Hl].
    unfold is_high in Hh. unfold is_low in Hl.
    apply andb_prop in Hh, Hl. destruct Hh as [Hh1 Hh2], Hl as [Hl1 Hl2].
    apply N.leb_le in Hh1, Hl1. apply N.ltb_lt in Hh2, Hl2.
    rewrite <- app_assoc. rewrite decode_4 by lia.
    cbn [wf_str nul_free forallb] in Hwf, Hnf.
    apply andb_prop in Hwf, Hnf. destruct Hwf as [_ Hwf], Hnf as [_ Hnf].
    rewrite IH; [ | cbn [List.length] in Hlen; lia | assumption | assumption].
    unfold units.
    replace (65536 + (c1 - 55296) * 1024 + (c2 - 56320) <? 65536)
      with false by (symmetry; ltb_false).
    f_equal; [ndiv|]. f_equal. ndiv.
  - rewrite <- app_assoc. rewrite decode_3 by assumption. now rewrite IH1.
Qed.

Lemma utf8_roundtrip s :
  wf_str s = true -> nul_free s = true ->
  utf8_decode (utf8_encode s true) true = s.
Proof.
  intros Hwf Hnf. unfold utf8_encode. rewrite before_nul_id by assumption.
  now apply (@utf8_roundtrip_aux (List.length s)).
Qed.

#[export] Instance codec_laws : CodecLaws Reference.codec.
Proof.
  constructor.
  - exact b64_decode_encode.
  - exact b64_encode_no_dot.
  - intros s Hnf. cbn. now rewrite before_nul_id.
  - exact utf8_roundtrip.
Qed.

End ReferenceFacts.

(** ** Strings *)

Lemma str_eqb_eq a b : str_eqb a b = true <-> a = b.
Proof.
  unfold str_eqb. destruct (list_eq_dec N.eq_dec a b); split; congruence.
Qed.

Lemma split_not_nil s sep : split s sep <> [].
Proof.
  destruct s as [|c s]; cbn [split]; [discriminate|].
  destruct (c =? sep); [discriminate|].
  destruct (split s sep); discriminate.
Qed.

Lemma split_no_sep s sep : ~ In sep s -> split s sep = [s].
Proof.
  induction s as [|c s IH]; intros H; cbn [split]; [reflexivity|].
  destruct (N.eqb_spec c sep) as [->|Hc].
  - exfalso. apply H. now left.
  - rewrite IH; [reflexivity|]. intros Hin. apply H. now right.
Qed.

Lemma split_app s sep rest :
  ~ In sep s -> split (s ++ sep :: rest) sep = s :: split rest sep.
Proof.
  induction s as [|c s IH]; intros H; cbn [app split].
  - now rewrite N.eqb_refl.
  - destruct (N.eqb_spec c sep) as [->|Hc].
    + exfalso. apply H. now left.
    + rewrite IH; [reflexivity|]. intros Hin. apply H. now right.
Qed.

Lemma split_token a b c :
  ~ In DOT a -> ~ In DOT b -> ~ In DOT c ->
  split (a ++ lit "." ++ b ++ lit "." ++ c) DOT = [a; b; c].
Proof.
  intros Ha Hb Hc. change (lit ".") with [DOT]. cbn [app].
  rewrite (@split_app a DOT _ Ha), (@split_app b DOT _ Hb), (@split_no_sep c DOT Hc).
  reflexivity.
Qed.

Lemma count_token a b c :
  ~ In DOT a -> ~ In DOT b -> ~ In DOT c ->
  count_occ N.eq_dec (a ++ lit "." ++ b ++ lit "." ++ c) DOT = 2%nat.
Proof.
  intros Ha Hb Hc. change (lit ".") with [DOT]. cbn [app].
  rewrite count_occ_app, count_occ_cons_eq by reflexivity.
  rewrite count_occ_app, count_occ_cons_eq by reflexivity.
  apply (count_occ_not_In N.eq_dec) in Ha, Hb, Hc.
  unfold char in *. rewrite Ha, Hb, Hc. reflexivity.
Qed.

(** ** The calls of the entry points, whatever answers them *)

Section AnyHandler.

Context {codec : Codec}.
Variables W S : Type.
Variable h : Handler W S.

Lemma importKey_trace input s :
  importKey_calls input (trace (run h (importKey input) s)).
Proof.
  unfold importKey. cbn.
  destruct (h Wallet_load s) as [[w|] s1]; cbn; [|constructor].
  match goal with |- context [h (Wallet_importKey ?w ?d ?f ?kd ?a ?x ?u) ?s] =>
    destruct (h (Wallet_importKey w d f kd a x u) s) as [[ok w'] s2] end.
  cbn. constructor.
Qed.

Lemma createWallet_existing input s w :
  fst (h Wallet_load s) = Some w ->
  run h (createWallet input) s
  = {| result := tt;
       final := snd (h (revert (lit "Wallet does already exists."))
                       (snd (h Wallet_load s)));
       trace := [CLoad true; CRevert (lit "Wallet does already exists.")] |}.
Proof.
  intros H. unfold createWallet. cbn -[lit]. rewrite H. reflexivity.
Qed.

Lemma removeKey_failed input s w :
  fst (h Wallet_load s) = Some w ->
  fst (fst (h (Wallet_removeKey w (rk_keyId input)) (snd (h Wallet_load s))))
  = false ->
  run h (removeKey input) s
  = {| result := tt;
       final := snd (h (Wallet_removeKey w (rk_keyId input))
                       (snd (h Wallet_load s)));
       trace := [CLoad true; CRemoveKey (rk_keyId input) false] |}.
Proof.
  intros H1 H2. unfold removeKey. cbn. rewrite H1. cbn.
  destruct (h (Wallet_removeKey w (rk_keyId input)) (snd (h Wallet_load s)))
    as [[ok w'] s2]. cbn in *. subst ok. reflexivity.
Qed.

Lemma generateJWT_trace input s :
  generateJWT_calls input (trace (run h (generateJWT input) s)).
Proof.
  unfold generateJWT. cbn -[lit].
  destruct (h Wallet_load s) as [[w|] s1]; cbn -[lit]; [|constructor].
  match goal with |- context [h (Wallet_sign ?w ?k ?p) ?s] =>
    destruct (h (Wallet_sign w k p) s) as [[[sg|] w'] s3] end;
    cbn -[lit]; constructor.
Qed.

Lemma checkJWT_malformed input :
  List.length (split (jc_jwt input) DOT) <> 3%nat ->
  checkJWT (W := W) input
  = Vis (revert (lit "Invalid JWT format")) (fun _ => Ret tt).
Proof.
  intros H. unfold checkJWT.
  destruct (split (jc_jwt input) DOT) as [|a [|b [|c [|d l]]]];
    try reflexivity.
  now contradiction H.
Qed.

Lemma checkJWT_trace input s :
  checkJWT_calls input (trace (run h (checkJWT input) s)).
Proof.
  destruct (Nat.eq_dec (List.length (split (jc_jwt input) DOT)) 3) as [E|E].
  - destruct (split (jc_jwt input) DOT) as [|a [|b [|c [|d l]]]] eqn:Es;
      try discriminate E.
    unfold checkJWT. rewrite Es. cbn -[lit].
    destruct (h Wallet_load s) as [[w|] s1]; cbn -[lit];
      [|now apply chk_no_wallet with a b c].
    destruct (decode a) as [header|] eqn:Da; cbn -[lit];
      [|now apply chk_header_aborts with a b c].
    destruct (decode b) as [payload|] eqn:Db; cbn -[lit];
      [|now apply chk_payload_aborts with a b c].
    match goal with |- context [h (Wallet_verify ?w ?k ?p ?g) ?s] =>
      destruct (h (Wallet_verify w k p g) s) as [[ok w'] s3] end.
    cbn -[lit]. destruct ok; cbn -[lit]; now apply chk_verified.
  - rewrite (checkJWT_malformed _ E). cbn -[lit]. now apply chk_format.
Qed.

Lemma checkJWT_reaches_verify input s w a b c header payload :
  split (jc_jwt input) DOT = [a; b; c] ->
  fst (h Wallet_load s) = Some w ->
  decode a = Some header ->
  decode b = Some payload ->
  trace (run h (checkJWT input) s)
  = verified_calls (jc_keyId input) a b c header payload
      (verify_reply h s w (jc_keyId input) a b c header payload).
Proof.
  intros Es Hl Da Db. unfold checkJWT, verified_calls, verify_reply, shown_text.
  rewrite Es. cbn -[lit]. rewrite Hl. cbn -[lit]. rewrite Da. cbn -[lit].
  rewrite Db. cbn -[lit].
  match goal with |- context [h (Wallet_verify ?w ?k ?p ?g) ?s] =>
    destruct (h (Wallet_verify w k p g) s) as [[ok w'] s3] end.
  cbn -[lit]. destruct ok; reflexivity.
Qed.

Lemma checkJWT_header_aborts input s w a b c :
  split (jc_jwt input) DOT = [a; b; c] ->
  fst (h Wallet_load s) = Some w ->
  decode a = None ->
  trace (run h (checkJWT input) s) = [CLoad true; CAbort].
Proof.
  intros Es Hl Da. unfold checkJWT.
  rewrite Es. cbn -[lit]. rewrite Hl. cbn -[lit]. rewrite Da. reflexivity.
Qed.

Lemma checkJWT_payload_aborts input s w a b c header :
  split (jc_jwt input) DOT = [a; b; c] ->
  fst (h Wallet_load s) = Some w ->
  decode a = Some header ->
  decode b = None ->
  trace (run h (checkJWT input) s)
  = [CLoad true; CEmit (lit "jwtHeaderStr: " ++ shown_text header); CAbort].
Proof.
  intros Es Hl Da Db. unfold checkJWT.
  rewrite Es. cbn -[lit]. rewrite Hl. cbn -[lit]. rewrite Da. cbn -[lit].
  rewrite Db. reflexivity.
Qed.

Lemma generateJWT_signed_trace input s sig :
  In (CSign (jg_keyId input) (signing_input (jg_payload input)) (Some sig))
     (trace (run h (generateJWT input) s)) ->
  trace (run h (generateJWT input) s)
  = [CLoad true;
     CEmit (lit "Generating JWT: " ++ signing_input (jg_payload input) ++
            lit " - with key: " ++ jg_keyId input);
     CSign (jg_keyId input) (signing_input (jg_payload input)) (Some sig);
     CEmit (lit "JWT generated: " ++
            signing_input (jg_payload input) ++ lit "." ++ sig)].
Proof.
  intros Hin. destruct (generateJWT_trace input s) as [| |sg].
  - destruct Hin as [D|[]]. discriminate D.
  - destruct Hin as [D|[D|[D|[D|[]]]]]; discriminate D.
  - destruct Hin as [D|[D|[D|[D|[]]]]]; try discriminate D.
    injection D as ->. reflexivity.
Qed.

Lemma checkJWT_token_trace (laws : CodecLaws codec) k p sig s :
  ~ In DOT sig ->
  let t := trace (run h (checkJWT {| jc_keyId := k;
                                     jc_jwt := signing_input p ++ lit "." ++ sig |})
                      s) in
  t = [CLoad false] \/
  exists ok,
    t = verified_calls k header_segment (payload_segment p) sig
          (UTF8_encode (JSON_stringify {| alg := lit "ECDSA" |}) true)
          (UTF8_encode p true) ok.
Proof.
  intros Hsig t.
  assert (Es : split (signing_input p ++ lit "." ++ sig) DOT
               = [header_segment; payload_segment p; sig]).
  { unfold signing_input. rewrite <- !app_assoc.
    apply split_token; [apply encode_no_dot | apply encode_no_dot | exact Hsig]. }
  pose proof (checkJWT_trace {| jc_keyId := k;
                                jc_jwt := signing_input p ++ lit "." ++ sig |} s)
    as T.
  fold t in T.
  assert (Dh : decode header_segment
               = Some (UTF8_encode (JSON_stringify {| alg := lit "ECDSA" |}) true))
    by apply decode_encode.
  assert (Dp : decode (payload_segment p) = Some (UTF8_encode p true))
    by apply decode_encode.
  destruct T as [E | a b c E | a b c E D | a b c hb E D1 D2
                | a b c hb pb ok E D1 D2]; cbn [jc_jwt jc_keyId] in E.
  - rewrite Es in E. now contradiction E.
  - now left.
  - rewrite Es in E. injection E as <- <- <-. congruence.
  - rewrite Es in E. injection E as <- <- <-. congruence.
  - right. exists ok. rewrite Es in E. injection E as <- <- <-.
    rewrite Dh in D1. rewrite Dp in D2.
    injection D1 as <-. injection D2 as <-. reflexivity.
Qed.


Lemma checkJWT_verdict input t :
  checkJWT_calls input t ->
  (reverts t, accepted t) = verdict (jc_jwt input) (verify_answer t).
Proof.
  intros [E | a b c E | a b c E D | a b c hb E D1 D2 | a b c hb pb ok E D1 D2];
    unfold verdict.
  - destruct (split (jc_jwt input) DOT) as [|x [|y [|z [|d l]]]];
      try reflexivity.
    now contradiction E.
  - rewrite E. reflexivity.
  - rewrite E. reflexivity.
  - rewrite E. reflexivity.
  - rewrite E. destruct ok; reflexivity.
Qed.

End AnyHandler.

(** ** The token functions on the wallet of the specification *)

Section OnTheSpecWallet.

Context {codec : Codec}.
Variable C : Type.
Variable cp : CryptoProvider C.
Variable render_key : KeyRecord -> str.
Variable attributed : str -> KeyRecord -> bool.

Let H : Handler Wallet (Host C) := spec_handler cp render_key attributed.

Lemma spec_generateJWT_signed s w k p sg :
  ledger s = Some w ->
  wallet_sign cp w k (signing_input p) = Some sg ->
  run H (generateJWT {| jg_keyId := k; jg_payload := p |}) s
  = {| result := tt;
       final :=
         note (Emitted (lit "JWT generated: " ++ signing_input p ++ lit "." ++ sg))
           (note (Emitted (lit "Generating JWT: " ++ signing_input p ++
                           lit " - with key: " ++ k)) s);
       trace := [CLoad true;
                 CEmit (lit "Generating JWT: " ++ signing_input p ++
                        lit " - with key: " ++ k);
                 CSign k (signing_input p) (Some sg);
                 CEmit (lit "JWT generated: " ++ signing_input p ++
                        lit "." ++ sg)] |}.
Proof.
  intros Hl Hs. unfold generateJWT, H.
  cbn -[lit wallet_sign JSON_stringify]. unfold load. rewrite Hl.
  cbn -[lit wallet_sign JSON_stringify].
  change (encode (UTF8_encode (JSON_stringify {| alg := lit "ECDSA" |}) true) ++
          lit "." ++ encode (UTF8_encode p true)) with (signing_input p).
  rewrite Hs. reflexivity.
Qed.


Lemma wallet_sign_found w k kr m sg :
  find_key k w = Some kr ->
  cp_sign cp (kr_handle kr) (UTF8_encode m false) = Some sg ->
  wallet_sign cp w k m = Some (encode sg).
Proof. intros Hk Hs. unfold wallet_sign. now rewrite Hk, Hs. Qed.


End OnTheSpecWallet.

Lemma header_no_dot (codec : Codec) (laws : CodecLaws codec) :
  ~ In DOT header_segment.
Proof. apply encode_no_dot. Qed.

Lemma verified_calls_outcome (codec : Codec) k a b c header payload ok :
  accepted (verified_calls k a b c header payload ok) = ok /\
  reverts (verified_calls k a b c header payload ok)
  = (if ok then [] else [lit "Invalid JWT signature"]) /\
  verify_answer (verified_calls k a b c header payload ok) = Some ok /\
  last (verified_calls k a b c header payload ok) CNew
  = (if ok then CEmit (lit "Verification Successful")
     else CRevert (lit "Invalid JWT signature")).
Proof. destruct ok; repeat split; reflexivity. Qed.

(* ================================================================== *)
(** ** The claims *)

(** C1: if the underlying key import fails, importKey is to leave the
    wallet alone and never invoke save.  The code does not look at the
    result of [wallet.importKey]: whenever the import is reported to have
    failed, the calls of the run are exactly load, the failed import, and
    save.  (The sibling entry points save only on success.) *)
Theorem importKey_saves_after_failed_import :
  forall (W S : Type) (h : Handler W S) (input : ImportKeyInput) (s : S),
    let failed :=
      CImportKey (ik_description input) (format (ik_key input))
                 (keyData (ik_key input)) (algorithm (ik_key input))
                 (extractable (ik_key input)) (usages (ik_key input)) false in
    In failed (trace (run h (importKey input) s)) ->
    trace (run h (importKey input) s) = [CLoad true; failed; CSave] /\
    saved (trace (run h (importKey input) s)) = true.
Proof.
  intros W S h input s failed Hin.
  destruct (importKey_trace h input s) as [|ok].
  - destruct Hin as [D|[]]. discriminate D.
  - destruct Hin as [D|[D|[D|[]]]]; try discriminate D.
    injection D as ->. split; reflexivity.
Qed.

(** C2, as amended: for a key whose signing succeeds and a payload without
    NUL, generateJWT emits a token with exactly two separators; its second
    segment base64-decodes to the UTF-8 bytes of the payload followed by a
    zero byte, and the null-terminated UTF-8 decoding of those bytes is the
    payload.  First for every implementation of the wallet whose [sign]
    answers a text without the separator, then for the wallet of the
    specification, whose [sign] answers base64 text. *)
Theorem generateJWT_token_decodes :
  forall (codec : Codec) (laws : CodecLaws codec),
    (forall (W S : Type) (h : Handler W S) (input : JWTGenerateInput) (s : S)
            (sig : str),
        let p := jg_payload input in
        let tok := header_segment ++ lit "." ++ payload_segment p ++ lit "." ++ sig in
        In (CSign (jg_keyId input) (signing_input p) (Some sig))
           (trace (run h (generateJWT input) s)) ->
        ~ In DOT sig ->
        wf_str p = true ->
        nul_free p = true ->
        emitted_token (trace (run h (generateJWT input) s)) = Some tok /\
        count_occ N.eq_dec tok DOT = 2%nat /\
        split tok DOT = [header_segment; payload_segment p; sig] /\
        decode (payload_segment p) = Some (UTF8_encode p false ++ [x00]) /\
        decode_text (payload_segment p) true = Some p)
    /\
    (forall (C : Type) (cp : CryptoProvider C)
            (render_key : KeyRecord -> str) (attributed : str -> KeyRecord -> bool)
            (s : Host C) (w : Wallet) (k p : str) (kr : KeyRecord) (sg : list byte),
        ledger s = Some w ->
        find_key k w = Some kr ->
        cp_sign cp (kr_handle kr) (UTF8_encode (signing_input p) false) = Some sg ->
        wf_str p = true ->
        nul_free p = true ->
        exists tok seg0 seg1 seg2,
          emitted_token
            (trace (run (spec_handler cp render_key attributed)
                        (generateJWT {| jg_keyId := k; jg_payload := p |}) s))
          = Some tok /\
          count_occ N.eq_dec tok DOT = 2%nat /\
          split tok DOT = [seg0; seg1; seg2] /\
          decode seg1 = Some (UTF8_encode p false ++ [x00]) /\
          decode_text seg1 true = Some p).
Proof.
  intros codec laws.
  assert (G : forall (W S : Type) (h : Handler W S) (input : JWTGenerateInput)
                     (s : S) (sig : str),
             let p := jg_payload input in
             let tok := header_segment ++ lit "." ++ payload_segment p ++
                        lit "." ++ sig in
             In (CSign (jg_keyId input) (signing_input p) (Some sig))
                (trace (run h (generateJWT input) s)) ->
             ~ In DOT sig ->
             wf_str p = true ->
             nul_free p = true ->
             emitted_token (trace (run h (generateJWT input) s)) = Some tok /\
             count_occ N.eq_dec tok DOT = 2%nat /\
             split tok DOT = [header_segment; payload_segment p; sig] /\
             decode (payload_segment p) = Some (UTF8_encode p false ++ [x00]) /\
             decode_text (payload_segment p) true = Some p).
  { intros W S h input s sig p tok Hin Hsig Hwf Hnf.
    rewrite (@generateJWT_signed_trace codec W S h input s sig Hin).
    split.
    { unfold tok, p, signing_input. rewrite <- !app_assoc. reflexivity. }
    split; [apply count_token; try apply encode_no_dot; exact Hsig|].
    split; [apply split_token; try apply encode_no_dot; exact Hsig|].
    unfold decode_text, payload_segment. rewrite decode_encode.
    split; [f_equal; now apply UTF8_encode_nt|].
    cbn [option_map]. f_equal. now apply UTF8_roundtrip_nt. }
  split; [exact G|].
  intros C cp rk at' s w k p kr sg Hl Hk Hs Hwf Hnf.
  exists (header_segment ++ lit "." ++ payload_segment p ++ lit "." ++ encode sg),
         header_segment, (payload_segment p), (encode sg).
  apply (G Wallet (Host C) (spec_handler cp rk at')
           {| jg_keyId := k; jg_payload := p |} s (encode sg));
    [ | apply encode_no_dot | exact Hwf | exact Hnf ].
  rewrite (@spec_generateJWT_signed codec C cp rk at' s w k p (encode sg) Hl
             (@wallet_sign_found codec C cp w k kr _ sg Hk Hs)).
  cbn [trace jg_keyId jg_payload]. do 2 right. left. reflexivity.
Qed.

(** C4: a token whose split on the separator does not give exactly three
    segments makes checkJWT the single call [revert "Invalid JWT format"]:
    the wallet is not loaded, nothing is verified, and the program is the
    same for every codec, so nothing is decoded. *)
Theorem checkJWT_rejects_malformed_first :
  forall (codec : Codec) (W : Type) (input : JWTCheckInput),
    List.length (split (jc_jwt input) DOT) <> 3%nat ->
    checkJWT (W := W) input
    = Vis (revert (lit "Invalid JWT format")) (fun _ => Ret tt)
    /\
    forall (S : Type) (h : Handler W S) (s : S),
      trace (run h (checkJWT input) s) = [CRevert (lit "Invalid JWT format")].
Proof.
  intros codec W input Hn.
  pose proof (@checkJWT_malformed codec W input Hn) as E.
  split; [exact E|]. intros S h s. rewrite E. reflexivity.
Qed.


(** C6: when a wallet already exists, createWallet aborts with "Wallet
    does already exists." and makes no other call after the load; on the
    wallet of the specification the host is left as it was but for that
    message: name, keys and users are unchanged and nothing is saved. *)
Theorem createWallet_exactly_once :
  (forall (W S : Type) (h : Handler W S) (input : CreateWalletInput) (s : S) (w : W),
      fst (h _ Wallet_load s) = Some w ->
      trace (run h (createWallet input) s)
      = [CLoad true; CRevert (lit "Wallet does already exists.")])
  /\
  (forall (codec : Codec) (C : Type) (cp : CryptoProvider C)
          (render_key : KeyRecord -> str) (attributed : str -> KeyRecord -> bool)
          (input : CreateWalletInput) (s : Host C) (w : Wallet),
      ledger s = Some w ->
      let r := run (spec_handler cp render_key attributed) (createWallet input) s in
      final r = note (Reverted (lit "Wallet does already exists.")) s /\
      ledger (final r) = Some w /\
      saved (trace r) = false).
Proof.
  split.
  - intros W S h input s w Hl.
    now rewrite (@createWallet_existing W S h input s w Hl).
  - intros codec C cp rk at' input s w Hl r.
    assert (E : r = _)
      by (apply (@createWallet_existing Wallet (Host C)
                   (spec_handler cp rk at') input s w); exact Hl).
    rewrite E. cbn -[lit]. repeat split. exact Hl.
Qed.

(** C7: for a key that is not in the wallet, removeKey loads the wallet,
    is told by [wallet.removeKey] that nothing was removed, and stops: no
    abort, no save, and the host (the persisted slot included) is exactly
    as before.  First the entry point for every implementation of the
    wallet: when [wallet.removeKey] answers false nothing is called after
    it; then the wallet of the specification, whose [removeKey] answers
    false for an absent key and changes nothing. *)
Theorem removeKey_absent_is_benign :
  (forall (W S : Type) (h : Handler W S) (input : RemoveKeyInput) (s : S) (w : W),
      fst (h _ Wallet_load s) = Some w ->
      fst (fst (h _ (Wallet_removeKey w (rk_keyId input)) (snd (h _ Wallet_load s))))
      = false ->
      run h (removeKey input) s
      = {| result := tt;
           final := snd (h _ (Wallet_removeKey w (rk_keyId input))
                           (snd (h _ Wallet_load s)));
           trace := [CLoad true; CRemoveKey (rk_keyId input) false] |})
  /\
  (forall (codec : Codec) (C : Type) (cp : CryptoProvider C)
          (render_key : KeyRecord -> str) (attributed : str -> KeyRecord -> bool)
          (s : Host C) (w : Wallet) (k : str),
      ledger s = Some w ->
      has_key k w = false ->
      run (spec_handler cp render_key attributed) (removeKey {| rk_keyId := k |}) s
      = {| result := tt; final := s; trace := [CLoad true; CRemoveKey k false] |}).
Proof.
  split.
  - intros W S h input s w Hl Hr. exact (@removeKey_failed W S h input s w Hl Hr).
  - intros codec C cp rk at' s w k Hl Hk.
    rewrite (@removeKey_failed Wallet (Host C) (spec_handler cp rk at')
               {| rk_keyId := k |} s w Hl).
    + reflexivity.
    + cbn. unfold wallet_removeKey. now rewrite Hk.
Qed.

(** C8: the header segment of every token generateJWT emits is the base64
    of the null-terminated JSON text with algorithm ECDSA, whatever the key
    and the wallet; and checkJWT never holds the decoded header against the
    key: for every token of three segments that decode, whatever bytes the
    header segment decodes to, checkJWT with a wallet shows the two texts,
    asks verify about the raw segments and ends by verify's answer alone,
    so it accepts as soon as verify answers true; and no abort of checkJWT
    has another message than the two about format and signature. *)
Theorem header_tag_fixed_and_unchecked :
  forall (codec : Codec) (laws : CodecLaws codec),
    header_segment = encode (UTF8_encode ecdsa_header_json true) /\
    decode header_segment = Some (UTF8_encode ecdsa_header_json true) /\
    (forall (W S : Type) (h : Handler W S) (input : JWTGenerateInput) (s : S)
            (tok : str),
        In (CEmit (lit "JWT generated: " ++ tok))
           (trace (run h (generateJWT input) s)) ->
        nth 0 (split tok DOT) [] = header_segment) /\
    (forall (W S : Type) (h : Handler W S) (input : JWTCheckInput) (s : S)
            (a b c : str),
        split (jc_jwt input) DOT = [a; b; c] ->
        verify_answer (trace (run h (checkJWT input) s)) = Some true ->
        accepted (trace (run h (checkJWT input) s)) = true /\
        reverts (trace (run h (checkJWT input) s)) = []) /\
    (forall (W S : Type) (h : Handler W S) (input : JWTCheckInput) (s : S) (w : W)
            (a b c : str) (hb pb : list byte),
        let t := trace (run h (checkJWT input) s) in
        let ok := verify_reply h s w (jc_keyId input) a b c hb pb in
        split (jc_jwt input) DOT = [a; b; c] ->
        fst (h _ Wallet_load s) = Some w ->
        decode a = Some hb ->
        decode b = Some pb ->
        t = verified_calls (jc_keyId input) a b c hb pb ok /\
        accepted t = ok /\
        reverts t = (if ok then [] else [lit "Invalid JWT signature"])) /\
    (forall (W S : Type) (h : Handler W S) (input : JWTCheckInput) (s : S)
            (m : str),
        In m (reverts (trace (run h (checkJWT input) s))) ->
        m = lit "Invalid JWT format" \/ m = lit "Invalid JWT signature").
Proof.
  intros codec laws.
  split; [reflexivity|].
  split; [apply decode_encode|].
  split; [|split; [|split]].
  - intros W S h input s tok Hin.
    destruct (@generateJWT_trace codec W S h input s) as [| |sg].
    + destruct Hin as [D|[]]. discriminate D.
    + destruct Hin as [D|[D|[D|[D|[]]]]]; discriminate D.
    + destruct Hin as [D|[D|[D|[D|[]]]]]; try discriminate D.
      injection D as D. subst tok.
      transitivity
        (nth 0 (header_segment ::
                split (payload_segment (jg_payload input) ++ DOT :: sg) DOT) []);
        [|reflexivity].
      f_equal.
      rewrite <- (@split_app header_segment DOT _ (@header_no_dot codec laws)).
      f_equal. unfold signing_input. rewrite <- app_assoc. reflexivity.
  - intros W S h input s a b c Es Hv.
    pose proof (@checkJWT_verdict codec input _
                 (@checkJWT_trace codec W S h input s)) as V.
    rewrite Hv in V. unfold verdict in V. rewrite Es in V.
    injection V as -> ->. split; reflexivity.
  - intros W S h input s w a b c hb pb t ok Es Hl Da Db.
    pose proof (@checkJWT_reaches_verify codec W S h input s w a b c hb pb
                  Es Hl Da Db) as E.
    fold t in E. fold ok in E. split; [exact E|]. rewrite E.
    destruct (@verified_calls_outcome codec (jc_keyId input) a b c hb pb ok)
      as (A & R & _).
    split; assumption.
  - intros W S h input s m Hin.
    destruct (@checkJWT_trace codec W S h input s)
      as [E | a b c E | a b c E D | a b c hb E D1 D2 | a b c hb pb ok E D1 D2];
      cbn -[lit] in Hin; try (now destruct Hin).
    + destruct Hin as [<-|[]]. now left.
    + destruct ok; cbn -[lit] in Hin; [now destruct Hin|].
      destruct Hin as [<-|[]]. now right.
Qed.

(** C9: when [Wallet.load] finds no wallet, generateKey, removeKey,
    importKey, listKeys, addUser, removeUser and generateJWT each return at
    once: the load is the only call (no emit, no revert, no save) and the
    host is as the load left it. *)
Theorem no_wallet_is_silent_noop :
  forall (codec : Codec) (W S : Type) (h : Handler W S) (s : S),
    fst (h _ Wallet_load s) = None ->
    let quiet := {| result := tt; final := snd (h _ Wallet_load s);
                    trace := [CLoad false] |} in
    (forall input, run h (generateKey input) s = quiet) /\
    (forall input, run h (removeKey input) s = quiet) /\
    (forall input, run h (importKey input) s = quiet) /\
    (forall input, run h (listKeys input) s = quiet) /\
    (forall input, run h (addUser input) s = quiet) /\
    (forall input, run h (removeUser input) s = quiet) /\
    (forall input, run h (generateJWT input) s = quiet).
Proof.
  intros codec W S h s Hl quiet.
  repeat split; intros input;
    [ unfold generateKey | unfold removeKey | unfold importKey | unfold listKeys
    | unfold addUser | unfold removeUser | unfold generateJWT ];
    cbn -[lit]; rewrite Hl; reflexivity.
Qed.

(** C10: with a wallet and a token of three segments that both decode,
    checkJWT asks verify about the raw first two segments joined by the
    separator and the raw third segment, and its aborts and whether it
    reports success are verify's answer alone: two such runs on the same
    token, with any codecs, wallets, hosts and keys, that get the same
    answer end the same way, the decoded texts reaching the messages only.
    When the header or the payload segment does not decode, the run is cut
    short there: verify is not asked, nothing is accepted and no abort
    message is given.  For every token, the aborts and the success follow
    from the split and verify's answer, if it was asked. *)
Theorem checkJWT_outcome_determined :
  (forall (c1 c2 : Codec) (W1 S1 W2 S2 : Type)
          (h1 : Handler W1 S1) (h2 : Handler W2 S2) (s1 : S1) (s2 : S2)
          (w1 : W1) (w2 : W2) (k1 k2 jwt a b c : str)
          (hb1 pb1 hb2 pb2 : list byte),
      let t1 := trace (run h1 (@checkJWT c1 W1 {| jc_keyId := k1; jc_jwt := jwt |}) s1) in
      let t2 := trace (run h2 (@checkJWT c2 W2 {| jc_keyId := k2; jc_jwt := jwt |}) s2) in
      let ok1 := @verify_reply c1 W1 S1 h1 s1 w1 k1 a b c hb1 pb1 in
      let ok2 := @verify_reply c2 W2 S2 h2 s2 w2 k2 a b c hb2 pb2 in
      split jwt DOT = [a; b; c] ->
      fst (h1 _ Wallet_load s1) = Some w1 ->
      fst (h2 _ Wallet_load s2) = Some w2 ->
      @decode c1 a = Some hb1 -> @decode c1 b = Some pb1 ->
      @decode c2 a = Some hb2 -> @decode c2 b = Some pb2 ->
      t1 = @verified_calls c1 k1 a b c hb1 pb1 ok1 /\
      t2 = @verified_calls c2 k2 a b c hb2 pb2 ok2 /\
      (reverts t1, accepted t1)
      = ((if ok1 then [] else [lit "Invalid JWT signature"]), ok1) /\
      (reverts t2, accepted t2)
      = ((if ok2 then [] else [lit "Invalid JWT signature"]), ok2) /\
      (ok1 = ok2 -> reverts t1 = reverts t2 /\ accepted t1 = accepted t2))
  /\
  (forall (codec : Codec) (W S : Type) (h : Handler W S) (input : JWTCheckInput)
          (s : S) (w : W) (a b c : str),
      let t := trace (run h (checkJWT input) s) in
      split (jc_jwt input) DOT = [a; b; c] ->
      fst (h _ Wallet_load s) = Some w ->
      (decode a = None -> t = [CLoad true; CAbort]) /\
      (forall hb, decode a = Some hb -> decode b = None ->
                  t = [CLoad true;
                       CEmit (lit "jwtHeaderStr: " ++ shown_text hb); CAbort]) /\
      (decode a = None \/ decode b = None ->
       verify_answer t = None /\ accepted t = false /\ reverts t = []))
  /\
  (forall (codec : Codec) (W S : Type) (h : Handler W S) (input : JWTCheckInput)
          (s : S),
      let t := trace (run h (checkJWT input) s) in
      (reverts t, accepted t) = verdict (jc_jwt input) (verify_answer t) /\
      (forall k p sg ok,
          In (CVerify k p sg ok) t ->
          exists a b c, split (jc_jwt input) DOT = [a; b; c] /\
                        k = jc_keyId input /\
                        p = a ++ lit "." ++ b /\ sg = c)).
Proof.
  split; [|split].
  - intros c1 c2 W1 S1 W2 S2 h1 h2 s1 s2 w1 w2 k1 k2 jwt a b c hb1 pb1 hb2 pb2
           t1 t2 ok1 ok2 Es L1 L2 Da1 Db1 Da2 Db2.
    pose proof (@checkJWT_reaches_verify c1 W1 S1 h1
                  {| jc_keyId := k1; jc_jwt := jwt |} s1 w1 a b c hb1 pb1
                  Es L1 Da1 Db1) as E1.
    pose proof (@checkJWT_reaches_verify c2 W2 S2 h2
                  {| jc_keyId := k2; jc_jwt := jwt |} s2 w2 a b c hb2 pb2
                  Es L2 Da2 Db2) as E2.
    cbn [jc_keyId] in E1, E2.
    fold t1 in E1. fold ok1 in E1. fold t2 in E2. fold ok2 in E2.
    destruct (@verified_calls_outcome c1 k1 a b c hb1 pb1 ok1) as (A1 & R1 & _).
    destruct (@verified_calls_outcome c2 k2 a b c hb2 pb2 ok2) as (A2 & R2 & _).
    split; [exact E1|]. split; [exact E2|].
    rewrite E1, E2, A1, R1, A2, R2.
    split; [reflexivity|]. split; [reflexivity|].
    intros ->. split; reflexivity.
  - intros codec W S h input s w a b c t Es Hl.
    assert (A : decode a = None -> t = [CLoad true; CAbort])
      by (intros D; exact (@checkJWT_header_aborts codec W S h input s w a b c
                             Es Hl D)).
    assert (B : forall hb, decode a = Some hb -> decode b = None ->
                           t = [CLoad true;
                                CEmit (lit "jwtHeaderStr: " ++ shown_text hb);
                                CAbort])
      by (intros hb D1 D2;
          exact (@checkJWT_payload_aborts codec W S h input s w a b c hb
                   Es Hl D1 D2)).
    split; [exact A|]. split; [exact B|].
    intros D.
    destruct (decode a) as [hb|] eqn:Da.
    + destruct D as [D|D]; [discriminate D|].
      rewrite (B hb eq_refl D). repeat split; reflexivity.
    + rewrite (A eq_refl). repeat split; reflexivity.
  - intros codec W S h input s t.
    pose proof (@checkJWT_trace codec W S h input s) as T.
    fold t in T.
    split; [exact (@checkJWT_verdict codec input t T)|].
    intros k p sg ok Hin.
    destruct T as [E | a b c E | a b c E D | a b c hb E D1 D2
                  | a b c hb pb ok' E D1 D2].
    + destruct Hin as [D|[]]. discriminate D.
    + destruct Hin as [D|[]]. discriminate D.
    + destruct Hin as [D'|[D'|[]]]; discriminate D'.
    + destruct Hin as [D'|[D'|[D'|[]]]]; discriminate D'.
    + exists a, b, c. split; [exact E|].
      destruct Hin as [D|[D|[D|[D|[D|[]]]]]]; try discriminate D.
      * injection D as <- <- <- <-. auto.
      * destruct ok'; discriminate D.
Qed.

(* ================================================================== *)
(** ** The claims on the concrete setting *)

Module Evaluated.

#[local] Existing Instance Reference.codec.

Lemma importKey_saves_after_failed_import_witness :
  let failed :=
    CImportKey (lit "imported key") (lit "raw") [] (lit "ECDSA") false
               [lit "sign"] false in
  In failed (trace (run Demo.handler (importKey Demo.refused_import) Demo.host)) /\
  trace (run Demo.handler (importKey Demo.refused_import) Demo.host)
  = [CLoad true; failed; CSave] /\
  saved (trace (run Demo.handler (importKey Demo.refused_import) Demo.host)) = true.
Proof.
  assert (Hin : In (CImportKey (lit "imported key") (lit "raw") [] (lit "ECDSA")
                               false [lit "sign"] false)
                   (trace (run Demo.handler (importKey Demo.refused_import)
                               Demo.host)))
    by (right; left; reflexivity).
  split; [exact Hin|].
  exact (@importKey_saves_after_failed_import Wallet (Host nat) Demo.handler
           Demo.refused_import Demo.host Hin).
Defined.

(** C2 as stated fails: the payload a, NUL, b is signed and a token with
    three segments is emitted, but the second segment, base64-decoded and
    read as UTF-8, is not the payload, neither with the null-terminated
    decoding checkJWT uses nor with the plain one. *)
Lemma generateJWT_payload_with_NUL_not_recovered :
  exists tok,
    emitted_token (trace (run Demo.handler (generateJWT Demo.nul_input) Demo.host))
    = Some tok /\
    List.length (split tok DOT) = 3%nat /\
    decode_text (nth 1 (split tok DOT) []) true
    <> Some (jg_payload Demo.nul_input) /\
    decode_text (nth 1 (split tok DOT) []) false
    <> Some (jg_payload Demo.nul_input).
Proof.
  eexists. split; [vm_compute; reflexivity|].
  split; [vm_compute; reflexivity|].
  split; vm_compute; discriminate.
Qed.

(** The payload hello: the second segment holds hello and a zero byte, so
    the plain UTF-8 decoding ends in NUL and the null-terminated one gives
    hello back. *)
Example hello_token_plain_decoding :
  emitted_token (trace (run Demo.handler (generateJWT Demo.hello_input) Demo.host))
  = Some Demo.hello_token /\
  nth 1 (split Demo.hello_token DOT) [] = lit "aGVsbG8A" /\
  decode_text (lit "aGVsbG8A") false = Some (lit "hello" ++ [NUL]) /\
  decode_text (lit "aGVsbG8A") true = Some (lit "hello").
Proof. repeat split; vm_compute; reflexivity. Qed.

Lemma generateJWT_token_decodes_witness :
  ledger Demo.host = Some Demo.wallet /\
  find_key (lit "k1") Demo.wallet = Some Demo.k1 /\
  cp_sign Demo.provider (kr_handle Demo.k1)
          (UTF8_encode (signing_input (lit "hello")) false)
  = Some Demo.hello_signature /\
  wf_str (lit "hello") = true /\
  nul_free (lit "hello") = true /\
  exists tok seg0 seg1 seg2,
    emitted_token (trace (run Demo.handler (generateJWT Demo.hello_input) Demo.host))
    = Some tok /\
    count_occ N.eq_dec tok DOT = 2%nat /\
    split tok DOT = [seg0; seg1; seg2] /\
    decode seg1 = Some (UTF8_encode (lit "hello") false ++ [x00]) /\
    decode_text seg1 true = Some (lit "hello").
Proof.
  do 5 (split; [reflexivity|]).
  exact (proj2 (@generateJWT_token_decodes Reference.codec
                  ReferenceFacts.codec_laws)
           nat Demo.provider kr_keyId (fun _ _ => true)
           Demo.host Demo.wallet (lit "k1") (lit "hello") Demo.k1
           Demo.hello_signature
           eq_refl eq_refl eq_refl eq_refl eq_refl).
Defined.

Lemma checkJWT_rejects_malformed_first_witness :
  List.length (split (lit "a.b") DOT) <> 3%nat /\
  trace (run Demo.handler
             (checkJWT {| jc_keyId := lit "k1"; jc_jwt := lit "a.b" |}) Demo.host)
  = [CRevert (lit "Invalid JWT format")].
Proof.
  assert (Hn : List.length (split (lit "a.b") DOT) <> 3%nat)
    by (vm_compute; discriminate).
  split; [exact Hn|].
  exact (proj2 (@checkJWT_rejects_malformed_first Reference.codec Wallet
                  {| jc_keyId := lit "k1"; jc_jwt := lit "a.b" |} Hn)
           (Host nat) Demo.handler Demo.host).
Defined.


(** The same token with another signature: verify is asked and refuses,
    and checkJWT aborts. *)
Example checkJWT_rejects_other_signature :
  let t := trace (run Demo.handler
                      (checkJWT {| jc_keyId := lit "k1";
                                   jc_jwt := signing_input (lit "hello") ++
                                             lit "." ++ lit "AAAA" |})
                      Demo.host) in
  verify_answer t = Some false /\
  reverts t = [lit "Invalid JWT signature"] /\
  accepted t = false.
Proof. repeat split; vm_compute; reflexivity. Qed.

Lemma createWallet_exactly_once_witness :
  fst (Demo.handler Wallet_load Demo.host) = Some Demo.wallet /\
  trace (run Demo.handler (createWallet {| cw_name := lit "again" |}) Demo.host)
  = [CLoad true; CRevert (lit "Wallet does already exists.")] /\
  ledger Demo.host = Some Demo.wallet /\
  ledger (final (run Demo.handler (createWallet {| cw_name := lit "again" |})
                     Demo.host)) = Some Demo.wallet.
Proof.
  split; [reflexivity|].
  split.
  - exact (proj1 createWallet_exactly_once Wallet (Host nat) Demo.handler
             {| cw_name := lit "again" |} Demo.host Demo.wallet eq_refl).
  - split; [reflexivity|].
    exact (proj1 (proj2 (proj2 createWallet_exactly_once Reference.codec nat
                           Demo.provider kr_keyId (fun _ _ => true)
                           {| cw_name := lit "again" |} Demo.host Demo.wallet
                           eq_refl))).
Defined.

Lemma removeKey_absent_is_benign_witness :
  ledger Demo.host = Some Demo.wallet /\
  has_key (lit "k2") Demo.wallet = false /\
  run Demo.handler (removeKey {| rk_keyId := lit "k2" |}) Demo.host
  = {| result := tt; final := Demo.host;
       trace := [CLoad true; CRemoveKey (lit "k2") false] |}.
Proof.
  do 2 (split; [reflexivity|]).
  exact (proj2 removeKey_absent_is_benign Reference.codec nat Demo.provider
           kr_keyId (fun _ _ => true) Demo.host Demo.wallet (lit "k2")
           eq_refl eq_refl).
Defined.

Lemma header_tag_fixed_and_unchecked_witness :
  kr_algorithm Demo.k1 = lit "RSA-PSS" /\
  In (CEmit (lit "JWT generated: " ++ Demo.hello_token))
     (trace (run Demo.handler (generateJWT Demo.hello_input) Demo.host)) /\
  nth 0 (split Demo.hello_token DOT) [] = header_segment /\
  decode header_segment = Some (UTF8_encode ecdsa_header_json true) /\
  Samples.segment 0 Demo.other_token <> header_segment /\
  accepted (trace (run Demo.handler (checkJWT Samples.other_check) Demo.host))
  = true /\
  reverts (trace (run Demo.handler (checkJWT Samples.other_check) Demo.host))
  = [].
Proof.
  assert (Hin : In (CEmit (lit "JWT generated: " ++ Demo.hello_token))
                   (trace (run Demo.handler (generateJWT Demo.hello_input)
                               Demo.host)))
    by (do 3 right; left; reflexivity).
  split; [reflexivity|]. split; [exact Hin|].
  pose (T := @header_tag_fixed_and_unchecked Reference.codec
               ReferenceFacts.codec_laws).
  split; [|split; [|split]].
  - exact (proj1 (proj2 (proj2 T)) Wallet (Host nat) Demo.handler
             Demo.hello_input Demo.host Demo.hello_token Hin).
  - exact (proj1 (proj2 T)).
  - vm_compute. discriminate.
  - exact (proj2 (proj1 (proj2 (proj2 (proj2 (proj2 T))))
                    Wallet (Host nat) Demo.handler Samples.other_check Demo.host
                    Demo.wallet
                    (Samples.segment 0 Demo.other_token)
                    (Samples.segment 1 Demo.other_token)
                    (Samples.segment 2 Demo.other_token)
                    (Samples.decoded (Samples.segment 0 Demo.other_token))
                    (Samples.decoded (Samples.segment 1 Demo.other_token))
                    eq_refl eq_refl eq_refl eq_refl)).
Defined.

(** Both segments are the codec's [encode] applied to the null-terminated
    bytes, unchanged: under the usual alphabet the payload of three tildes
    gives a segment with a plus sign and padding. *)
Example payload_segment_usual_alphabet :
  payload_segment (lit "~~~") = lit "fn5+AA==".
Proof. vm_compute. reflexivity. Qed.

(** A token whose header says the algorithm is none is accepted all the
    same, its signature being right. *)
Example checkJWT_accepts_other_header :
  let t := trace (run Demo.handler
                      (checkJWT {| jc_keyId := lit "k1"; jc_jwt := Demo.other_token |})
                      Demo.host) in
  nth 0 (split Demo.other_token DOT) [] <> header_segment /\
  verify_answer t = Some true /\
  last t CNew = CEmit (lit "Verification Successful") /\
  reverts t = [].
Proof.
  split; [vm_compute; discriminate|].
  repeat split; vm_compute; reflexivity.
Qed.

Lemma no_wallet_is_silent_noop_witness :
  fst (Demo.handler Wallet_load Demo.empty_host) = None /\
  run Demo.handler (generateJWT Demo.hello_input) Demo.empty_host
  = {| result := tt; final := Demo.empty_host; trace := [CLoad false] |}.
Proof.
  split; [reflexivity|].
  exact (proj2 (proj2 (proj2 (proj2 (proj2 (proj2
           (@no_wallet_is_silent_noop Reference.codec Wallet (Host nat)
              Demo.handler Demo.empty_host eq_refl))))))
           Demo.hello_input).
Defined.

Lemma checkJWT_outcome_determined_witness :
  let t1 := trace (run Demo.handler
                       (@checkJWT Reference.codec Wallet
                          {| jc_keyId := lit "k1"; jc_jwt := Demo.hello_token |})
                       Demo.host) in
  let t2 := trace (run Demo.handler
                       (@checkJWT Demo.blind_codec Wallet
                          {| jc_keyId := lit "k1"; jc_jwt := Demo.hello_token |})
                       Demo.host) in
  List.length (split Demo.hello_token DOT) = 3%nat /\
  verify_answer t1 = Some true /\
  verify_answer t2 = Some true /\
  emits t1 <> emits t2 /\
  reverts t1 = reverts t2 /\ accepted t1 = accepted t2.
Proof.
  intros t1 t2.
  split; [reflexivity|].
  split; [vm_compute; reflexivity|].
  split; [vm_compute; reflexivity|].
  split; [vm_compute; discriminate|].
  exact (proj2 (proj2 (proj2 (proj2
           (proj1 checkJWT_outcome_determined
              Reference.codec Demo.blind_codec Wallet (Host nat) Wallet (Host nat)
              Demo.handler Demo.handler Demo.host Demo.host
              Demo.wallet Demo.wallet (lit "k1") (lit "k1") Demo.hello_token
              (Samples.segment 0 Demo.hello_token)
              (Samples.segment 1 Demo.hello_token)
              (Samples.segment 2 Demo.hello_token)
              (Samples.decoded (Samples.segment 0 Demo.hello_token))
              (Samples.decoded (Samples.segment 1 Demo.hello_token))
              [] []
              eq_refl eq_refl eq_refl eq_refl eq_refl eq_refl eq_refl))))
           eq_refl).
Defined.

(** C10 as stated fails: two tokens of three segments, on both of which
    the wallet's verify of the raw first two segments against the raw third
    answers true, end differently: the one whose segments decode is
    accepted, the one whose first segment does not decode is cut short
    before verify is asked and is not accepted. *)
Lemma checkJWT_decoding_decides_the_outcome :
  let good := trace (run Demo.handler (checkJWT Samples.hello_check) Demo.host) in
  let bad :=
    trace (run Demo.handler (checkJWT Samples.undecodable_check) Demo.host) in
  (List.length (split Demo.hello_token DOT) = 3%nat /\
   List.length (split Demo.undecodable_token DOT) = 3%nat) /\
  (wallet_verify Demo.provider Demo.wallet (lit "k1")
     (Samples.segment 0 Demo.hello_token ++ lit "." ++
      Samples.segment 1 Demo.hello_token)
     (Samples.segment 2 Demo.hello_token) = true /\
   wallet_verify Demo.provider Demo.wallet (lit "k1")
     (Samples.segment 0 Demo.undecodable_token ++ lit "." ++
      Samples.segment 1 Demo.undecodable_token)
     (Samples.segment 2 Demo.undecodable_token) = true) /\
  decode (Samples.segment 0 Demo.undecodable_token) = None /\
  accepted good = true /\
  bad = [CLoad true; CAbort] /\
  accepted bad = false /\
  verify_answer bad = None.
Proof. repeat split; vm_compute; reflexivity. Qed.

End Evaluated.

(* ================================================================== *)
(** ** Further properties of the entry points *)

Lemma length_split s sep :
  List.length (split s sep) = Datatypes.S (count_occ N.eq_dec s sep).
Proof.
  induction s as [|c s IH]; [reflexivity|].
  cbn [split count_occ].
  destruct (N.eqb_spec c sep) as [->|Hc].
  - destruct (N.eq_dec sep sep) as [_|F]; [|now contradiction F].
    cbn [List.length]. now rewrite IH.
  - destruct (N.eq_dec c sep) as [E|_]; [now contradiction Hc|].
    destruct (split s sep) as [|seg rest] eqn:Es.
    + now contradiction (@split_not_nil s sep).
    + cbn [List.length] in *. exact IH.
Qed.

Lemma join_split s sep : join sep (split s sep) = s.
Proof.
  induction s as [|c s IH]; [reflexivity|].
  cbn [split].
  destruct (N.eqb_spec c sep) as [->|Hc].
  - destruct (split s sep) as [|seg rest] eqn:Es.
    + now contradiction (@split_not_nil s sep).
    + cbn [join app]. cbn [join] in IH. now rewrite IH.
  - destruct (split s sep) as [|seg rest] eqn:Es.
    + now contradiction (@split_not_nil s sep).
    + destruct rest as [|seg' rest']; cbn [join app] in *; now rewrite IH.
Qed.

Lemma split_items_no_sep s sep :
  Forall (fun item => ~ In sep item) (split s sep).
Proof.
  induction s as [|c s IH]; cbn [split].
  - constructor; [intros []|constructor].
  - destruct (N.eqb_spec c sep) as [->|Hc].
    + constructor; [intros []|exact IH].
    + destruct (split s sep) as [|seg rest].
      * constructor; [|constructor]. intros [E|[]]. now apply Hc.
      * inversion IH as [|x l Hseg Hrest]; subst.
        constructor; [|exact Hrest].
        intros [E|Hin]; [now apply Hc|now apply Hseg].
Qed.

Lemma split_three s a b c :
  split s DOT = [a; b; c] ->
  s = a ++ lit "." ++ b ++ lit "." ++ c /\
  ~ In DOT a /\ ~ In DOT b /\ ~ In DOT c.
Proof.
  intros E. pose proof (join_split s DOT) as J.
  pose proof (split_items_no_sep s DOT) as F.
  rewrite E in J, F. cbn [join] in J.
  split; [symmetry; exact J|]. clear J E.
  inversion F as [|x1 l1 Ha F1]. inversion F1 as [|x2 l2 Hb F2].
  inversion F2 as [|x3 l3 Hc F3]. auto.
Qed.

Lemma replace_absent s c r : ~ In c s -> replace s c r = s.
Proof.
  induction s as [|d s IH]; intros H; cbn [replace]; [reflexivity|].
  destruct (N.eqb_spec d c) as [->|Hd].
  - exfalso. apply H. now left.
  - f_equal. apply IH. intros Hin. apply H. now right.
Qed.

Lemma replace_count s c :
  count_occ N.eq_dec (replace s c []) c = Nat.pred (count_occ N.eq_dec s c).
Proof.
  induction s as [|d s IH]; cbn [replace count_occ]; [reflexivity|].
  destruct (N.eqb_spec d c) as [->|Hd].
  - destruct (N.eq_dec c c) as [_|F]; [reflexivity|now contradiction F].
  - cbn [count_occ]. destruct (N.eq_dec d c) as [E|_]; [now contradiction Hd|].
    exact IH.
Qed.

Lemma replace_first s c pre post :
  s = pre ++ c :: post -> ~ In c pre -> replace s c [] = pre ++ post.
Proof.
  intros -> H. induction pre as [|d pre IH]; cbn [replace app].
  - now rewrite N.eqb_refl.
  - destruct (N.eqb_spec d c) as [->|Hd].
    + exfalso. apply H. now left.
    + f_equal. apply IH. intros Hin. apply H. now right.
Qed.

Ltac in_cases H :=
  repeat (destruct H as [H|H]); try discriminate H; try contradiction.

Ltac answer h e s :=
  let ok := fresh "ok" in
  destruct (h _ e s) as [[ok ?] ?]; destruct ok; cbn.

(** X1: createWallet creates and saves exactly when load finds no wallet:
    the calls are then load, new, create with the given name, save; when a
    wallet is found the only other call is the abort.  A run never both
    saves and aborts. *)
Theorem createWallet_creates_only_when_absent :
  forall (W S : Type) (h : Handler W S) (input : CreateWalletInput) (s : S),
    let t := trace (run h (createWallet input) s) in
    (t = [CLoad true; CRevert (lit "Wallet does already exists.")] \/
     t = [CLoad false; CNew; CCreate (cw_name input); CSave]) /\
    (saved t = true <-> In (CLoad false) t) /\
    (reverts t = [] <-> In (CLoad false) t).
Proof.
  intros W S h input s t. unfold t, createWallet. cbn -[lit].
  destruct (h _ Wallet_load s) as [[w|] s1]; cbn -[lit].
  - split; [now left|].
    split; (split; [intros D; discriminate D | intros Hin; in_cases Hin]).
  - split; [now right|].
    split; (split; [intros _; now left | reflexivity]).
Qed.

(** X2: generateKey, removeKey, addUser and removeUser save exactly when
    the wallet's method answered true, and never abort by themselves;
    addUser always passes false as its third argument. *)
Theorem mutators_save_only_on_success :
  forall (W S : Type) (h : Handler W S) (s : S),
    (forall input : GenerateKeyInput,
        let t := trace (run h (generateKey input) s) in
        (saved t = true <->
         In (CGenerateKey (gk_description input) (gk_algorithm input) true) t) /\
        reverts t = []) /\
    (forall input : RemoveKeyInput,
        let t := trace (run h (removeKey input) s) in
        (saved t = true <-> In (CRemoveKey (rk_keyId input) true) t) /\
        reverts t = []) /\
    (forall input : AddUserInput,
        let t := trace (run h (addUser input) s) in
        (saved t = true <->
         In (CAddUser (au_userId input) (au_role input) false true) t) /\
        reverts t = [] /\
        (forall u r force ok, In (CAddUser u r force ok) t -> force = false)) /\
    (forall input : RemoveUserInput,
        let t := trace (run h (removeUser input) s) in
        (saved t = true <-> In (CRemoveUser (ru_userId input) true) t) /\
        reverts t = []).
Proof.
  intros W S h s.
  split; [|split; [|split]]; intros input t;
    unfold t, generateKey, removeKey, addUser, removeUser; cbn;
    (destruct (h _ Wallet_load s) as [[w|] s1]; cbn;
     [ match goal with |- context [h _ ?e s1] =>
         destruct (h _ e s1) as [[[|] w'] s2] end; cbn;
       [ split; [split; [intros _; right; now left | reflexivity] |]
       | split; [split; [intros D; discriminate D | intros Hin; in_cases Hin] |] ]
     | split; [split; [intros D; discriminate D | intros Hin; in_cases Hin] |] ]);
    try reflexivity;
    (split; [reflexivity|]); intros u r force ok Hin; in_cases Hin;
    now injection Hin.
Qed.

(** X3: the queries listKeys, generateJWT and checkJWT never call a method
    that changes the wallet and never save. *)
Theorem queries_never_mutate :
  forall (codec : Codec) (W S : Type) (h : Handler W S) (s : S),
    (forall input, forallb (fun c => negb (mutating c))
                           (trace (run h (listKeys input) s)) = true) /\
    (forall input, forallb (fun c => negb (mutating c))
                           (trace (run h (generateJWT input) s)) = true) /\
    (forall input, forallb (fun c => negb (mutating c))
                           (trace (run h (checkJWT input) s)) = true).
Proof.
  intros codec W S h s. repeat split; intros input.
  - unfold listKeys. cbn.
    destruct (h _ Wallet_load s) as [[w|] s1]; reflexivity.
  - destruct (@generateJWT_trace codec W S h input s); reflexivity.
  - destruct (@checkJWT_trace codec W S h input s) as [| | | |a b c hb pb [|]];
      reflexivity.
Qed.

(** X4: in every run of every entry point, save is called at most once,
    as the last call, and such a run has no abort. *)
Theorem save_is_the_last_call :
  forall (codec : Codec) (W S : Type) (h : Handler W S) (s : S),
    (forall input, save_is_final (trace (run h (generateKey input) s))) /\
    (forall input, save_is_final (trace (run h (removeKey input) s))) /\
    (forall input, save_is_final (trace (run h (importKey input) s))) /\
    (forall input, save_is_final (trace (run h (listKeys input) s))) /\
    (forall input, save_is_final (trace (run h (addUser input) s))) /\
    (forall input, save_is_final (trace (run h (removeUser input) s))) /\
    (forall input, save_is_final (trace (run h (createWallet input) s))) /\
    (forall input, save_is_final (trace (run h (generateJWT input) s))) /\
    (forall input, save_is_final (trace (run h (checkJWT input) s))).
Proof.
  intros codec W S h s.
  assert (Q : forall t, forallb (fun c => negb (mutating c)) t = true ->
                        save_is_final t).
  { intros t Ht. left. induction t as [|c t IH]; [reflexivity|].
    cbn [forallb] in Ht. apply andb_prop in Ht. destruct Ht as [Hc Ht].
    cbn [saved existsb]. destruct c; try discriminate Hc; now apply IH. }
  assert (Ql : forall input, forallb (fun c => negb (mutating c))
                                     (trace (run h (listKeys input) s)) = true).
  { intros input. unfold listKeys. cbn.
    destruct (h _ Wallet_load s) as [[w|] s1]; reflexivity. }
  assert (Qg : forall input, forallb (fun c => negb (mutating c))
                                     (trace (run h (generateJWT input) s)) = true)
    by (intros input; destruct (@generateJWT_trace codec W S h input s);
        reflexivity).
  assert (Qc : forall input, forallb (fun c => negb (mutating c))
                                     (trace (run h (checkJWT input) s)) = true)
    by (intros input;
        destruct (@checkJWT_trace codec W S h input s)
          as [| | | |a b c hb pb [|]];
        reflexivity).
  repeat match goal with |- _ /\ _ => split end; intros input;
    try (apply Q; auto; fail);
    unfold generateKey, removeKey, importKey, addUser, removeUser, createWallet;
    cbn -[lit];
    (destruct (h _ Wallet_load s) as [[w|] s1]; cbn -[lit];
     try (left; reflexivity);
     try (right; eexists [_; _; _]; repeat split; reflexivity);
     match goal with |- context [h _ ?e s1] =>
       destruct (h _ e s1) as [[ok w'] s2] end; cbn;
     try destruct ok; cbn;
     try (left; reflexivity);
     right; eexists [_; _]; repeat split; reflexivity).
Qed.

(** X5: generateJWT emits a token exactly when the wallet's sign answered
    a signature, and the token is then the signed text, the separator and
    that signature; it aborts with "Failed to generate JWT" exactly when sign
    answered null; it never does both. *)
Theorem generateJWT_emits_token_iff_signed :
  forall (codec : Codec) (W S : Type) (h : Handler W S)
         (input : JWTGenerateInput) (s : S),
    let t := trace (run h (generateJWT input) s) in
    let signed := signing_input (jg_payload input) in
    (forall tok,
        emitted_token t = Some tok <->
        exists sg, In (CSign (jg_keyId input) signed (Some sg)) t /\
                   tok = signed ++ lit "." ++ sg) /\
    (reverts t = [lit "Failed to generate JWT"] <->
     In (CSign (jg_keyId input) signed None) t) /\
    (emitted_token t = None \/ reverts t = []).
Proof.
  intros codec W S h input s t signed.
  destruct (@generateJWT_trace codec W S h input s) as [| |sg];
    fold t; fold signed.
  - split; [|split; [|now left]].
    + intros tok. split; [intros D; discriminate D|].
      intros (sg & Hin & _). in_cases Hin.
    + split; [intros D; discriminate D | intros Hin; in_cases Hin].
  - split; [|split; [|now left]].
    + intros tok. split; [intros D; discriminate D|].
      intros (sg & Hin & _). in_cases Hin.
    + split; [intros _; do 2 right; now left | intros _; reflexivity].
  - split; [|split; [|now right]].
    + intros tok. split.
      * intros D. exists sg. split; [do 2 right; now left|].
        cbn in D. now injection D as <-.
      * intros (sg' & Hin & ->). in_cases Hin.
        injection Hin as <-. reflexivity.
    + split; [intros D; discriminate D | intros Hin; in_cases Hin].
Qed.

(** X6: checkJWT aborts with "Invalid JWT format" exactly when the token
    does not hold exactly two separators, and that abort is then its only
    call. *)
Theorem checkJWT_format_error_iff_not_two_dots :
  forall (codec : Codec) (W S : Type) (h : Handler W S)
         (input : JWTCheckInput) (s : S),
    let t := trace (run h (checkJWT input) s) in
    (In (lit "Invalid JWT format") (reverts t) <->
     count_occ N.eq_dec (jc_jwt input) DOT <> 2%nat) /\
    (count_occ N.eq_dec (jc_jwt input) DOT <> 2%nat ->
     t = [CRevert (lit "Invalid JWT format")]).
Proof.
  intros codec W S h input s t.
  pose proof (length_split (jc_jwt input) DOT) as L.
  destruct (@checkJWT_trace codec W S h input s)
    as [E | a b c E | a b c E D0 | a b c hb E D1 D2 | a b c hb pb ok E D1 D2];
    fold t.
  - assert (N2 : count_occ N.eq_dec (jc_jwt input) DOT <> 2%nat)
      by (intros D; apply E; rewrite L, D; reflexivity).
    split; [split; [intros _; exact N2 | intros _; now left] | reflexivity].
  - rewrite E in L. cbn [List.length] in L. injection L as L.
    split; [split|]; [intros [] | intros D | intros D];
      now contradiction D.
  - rewrite E in L. cbn [List.length] in L. injection L as L.
    split; [split|]; [intros [] | intros D | intros D];
      now contradiction D.
  - rewrite E in L. cbn [List.length] in L. injection L as L.
    split; [split|]; [intros [] | intros D | intros D];
      now contradiction D.
  - rewrite E in L. cbn [List.length] in L. injection L as L.
    split; [split|]; [ | intros D; now contradiction D
                       | intros D; now contradiction D].
    destruct ok; cbn; [intros []|]. intros [D|[]].
    apply str_eqb_eq in D. discriminate D.
Qed.

Lemma verify_call_segments (codec : Codec) (W S : Type) (h : Handler W S)
      (input : JWTCheckInput) (s : S) (k p sg : str) (ok : bool) :
  In (CVerify k p sg ok) (trace (run h (checkJWT input) s)) ->
  exists a b c,
    split (jc_jwt input) DOT = [a; b; c] /\
    k = jc_keyId input /\ p = a ++ lit "." ++ b /\ sg = c.
Proof.
  intros Hin.
  destruct (@checkJWT_trace codec W S h input s)
    as [E | a b c E | a b c E D0 | a b c hb E D1 D2 | a b c hb pb ok' E D1 D2].
  - in_cases Hin.
  - in_cases Hin.
  - in_cases Hin.
  - in_cases Hin.
  - exists a, b, c. split; [exact E|].
    destruct Hin as [D|[D|[D|[D|[D|[]]]]]]; try discriminate D.
    + injection D as <- <- <- _. auto.
    + destruct ok'; discriminate D.
Qed.

(** X7: whenever checkJWT asks the wallet to verify, it is with the key of
    the request, and the verified text, the separator and the signature put
    together are the whole token: the text holds exactly one separator and
    the signature none. *)
Theorem checkJWT_verifies_the_whole_token :
  forall (codec : Codec) (W S : Type) (h : Handler W S)
         (input : JWTCheckInput) (s : S) (k p sg : str) (ok : bool),
    In (CVerify k p sg ok) (trace (run h (checkJWT input) s)) ->
    k = jc_keyId input /\
    p ++ lit "." ++ sg = jc_jwt input /\
    count_occ N.eq_dec p DOT = 1%nat /\
    ~ In DOT sg.
Proof.
  intros codec W S h input s k p sg ok Hin.
  destruct (@verify_call_segments codec W S h input s k p sg ok Hin)
    as (a & b & c & E & -> & -> & ->).
  destruct (@split_three (jc_jwt input) a b c E) as (Ej & Ha & Hb & Hc).
  split; [reflexivity|]. split; [rewrite Ej, <- !app_assoc; reflexivity|].
  split; [|exact Hc].
  change (lit ".") with [DOT]. cbn [app].
  rewrite count_occ_app, count_occ_cons_eq by reflexivity.
  apply (count_occ_not_In N.eq_dec) in Ha, Hb.
  unfold char in *. rewrite Ha, Hb. reflexivity.
Qed.

(** X8: with a token of exactly two separators and no wallet, checkJWT
    returns after the load: no message, no abort, no verdict. *)
Theorem checkJWT_without_wallet_is_silent :
  forall (codec : Codec) (W S : Type) (h : Handler W S)
         (input : JWTCheckInput) (s : S),
    count_occ N.eq_dec (jc_jwt input) DOT = 2%nat ->
    fst (h _ Wallet_load s) = None ->
    run h (checkJWT input) s
    = {| result := tt; final := snd (h _ Wallet_load s); trace := [CLoad false] |}.
Proof.
  intros codec W S h input s Hd Hl.
  pose proof (length_split (jc_jwt input) DOT) as L. rewrite Hd in L.
  unfold checkJWT.
  destruct (split (jc_jwt input) DOT) as [|a [|b [|c [|d l]]]];
    try discriminate L.
  cbn -[lit]. rewrite Hl. reflexivity.
Qed.

(** X9: checkJWT emits "Verification Successful" exactly when the wallet's
    verify was asked and answered true, whatever the segments decode to;
    the message is then the last call and nothing was aborted. *)
Theorem checkJWT_success_iff_verified :
  forall (codec : Codec) (W S : Type) (h : Handler W S)
         (input : JWTCheckInput) (s : S),
    let t := trace (run h (checkJWT input) s) in
    (In (lit "Verification Successful") (emits t) <->
     verify_answer t = Some true) /\
    (verify_answer t = Some true ->
     last t CNew = CEmit (lit "Verification Successful") /\ reverts t = []).
Proof.
  intros codec W S h input s t.
  destruct (@checkJWT_trace codec W S h input s)
    as [E | a b c E | a b c E D0 | a b c hb E D1 D2 | a b c hb pb ok E D1 D2];
    fold t.
  - split; [split|]; [intros [] | intros D | intros D]; discriminate D.
  - split; [split|]; [intros [] | intros D | intros D]; discriminate D.
  - split; [split|]; [intros [] | intros D | intros D]; discriminate D.
  - split; [split|]; [intros [D|[]] | intros D | intros D]; discriminate D.
  - destruct ok; cbn -[lit].
    + split; [split; [reflexivity | intros _; do 2 right; now left]|].
      intros _. split; reflexivity.
    + split; [split|]; [ | intros D; discriminate D | intros D; discriminate D].
      intros [D|[D|[]]]; discriminate D.
Qed.

(** X10: with a wallet and a token of three segments that decode, the
    first two messages of checkJWT show the decoded header text and the
    decoded payload text with only the first backslash removed: the text
    before the first backslash followed by the text after it, every later
    backslash kept; a text without backslash is shown as it is. *)
Theorem checkJWT_strips_one_backslash :
  forall (codec : Codec) (W S : Type) (h : Handler W S)
         (input : JWTCheckInput) (s : S) (a b c : str) (hb pb : list byte),
    let t := trace (run h (checkJWT input) s) in
    let header := UTF8_decode hb true in
    let payload := UTF8_decode pb true in
    split (jc_jwt input) DOT = [a; b; c] ->
    In (CLoad true) t ->
    decode a = Some hb ->
    decode b = Some pb ->
    exists hs ps,
      firstn 2 (emits t)
      = [lit "jwtHeaderStr: " ++ hs; lit "jwtPayloadStr: " ++ ps] /\
      (forall pre post,
          header = pre ++ BACKSLASH :: post -> ~ In BACKSLASH pre ->
          hs = pre ++ post) /\
      (~ In BACKSLASH header -> hs = header) /\
      count_occ N.eq_dec hs BACKSLASH
      = Nat.pred (count_occ N.eq_dec header BACKSLASH) /\
      (forall pre post,
          payload = pre ++ BACKSLASH :: post -> ~ In BACKSLASH pre ->
          ps = pre ++ post) /\
      (~ In BACKSLASH payload -> ps = payload) /\
      count_occ N.eq_dec ps BACKSLASH
      = Nat.pred (count_occ N.eq_dec payload BACKSLASH).
Proof.
  intros codec W S h input s a b c hb pb t header payload Es Hl Da Db.
  destruct (@checkJWT_trace codec W S h input s)
    as [E | a' b' c' E | a' b' c' E D0 | a' b' c' hb' E D1 D2
       | a' b' c' hb' pb' ok E D1 D2];
    fold t in Hl; fold t.
  - in_cases Hl.
  - in_cases Hl.
  - rewrite Es in E. injection E as <- <- <-. rewrite Da in D0. discriminate D0.
  - rewrite Es in E. injection E as <- <- <-. rewrite Db in D2. discriminate D2.
  - rewrite Es in E. injection E as <- <- <-.
    rewrite Da in D1. injection D1 as <-.
    rewrite Db in D2. injection D2 as <-.
    exists (shown_text hb), (shown_text pb).
    split; [destruct ok; reflexivity|].
    unfold shown_text. fold header. fold payload.
    repeat split;
      try apply replace_count; try apply replace_absent;
      intros pre post Ed Hp; now apply replace_first.
Qed.

(** X11: two runs of checkJWT that ask verify about the same text and the
    same signature were given the same token. *)
Theorem checkJWT_verify_arguments_fix_the_token :
  forall (c1 c2 : Codec) (W1 S1 W2 S2 : Type)
         (h1 : Handler W1 S1) (h2 : Handler W2 S2)
         (in1 in2 : JWTCheckInput) (s1 : S1) (s2 : S2)
         (k1 k2 p sg : str) (ok1 ok2 : bool),
    In (CVerify k1 p sg ok1) (trace (run h1 (@checkJWT c1 W1 in1) s1)) ->
    In (CVerify k2 p sg ok2) (trace (run h2 (@checkJWT c2 W2 in2) s2)) ->
    jc_jwt in1 = jc_jwt in2.
Proof.
  intros c1 c2 W1 S1 W2 S2 h1 h2 in1 in2 s1 s2 k1 k2 p sg ok1 ok2 H1 H2.
  destruct (@verify_call_segments c1 W1 S1 h1 in1 s1 k1 p sg ok1 H1)
    as (a1 & b1 & x1 & E1 & _ & Ep1 & Es1).
  destruct (@verify_call_segments c2 W2 S2 h2 in2 s2 k2 p sg ok2 H2)
    as (a2 & b2 & x2 & E2 & _ & Ep2 & Es2).
  destruct (@split_three (jc_jwt in1) a1 b1 x1 E1) as (J1 & _).
  destruct (@split_three (jc_jwt in2) a2 b2 x2 E2) as (J2 & _).
  assert (T1 : jc_jwt in1 = p ++ lit "." ++ sg)
    by (rewrite J1, Ep1, Es1, <- !app_assoc; reflexivity).
  assert (T2 : jc_jwt in2 = p ++ lit "." ++ sg)
    by (rewrite J2, Ep2, Es2, <- !app_assoc; reflexivity).
  congruence.
Qed.

(** ** The further properties on the concrete setting *)

Module EvaluatedMore.

#[local] Existing Instance Reference.codec.

Lemma checkJWT_verifies_the_whole_token_witness :
  In (CVerify (lit "k1") (signing_input (lit "hello"))
              (Reference.b64_encode Demo.hello_signature) true)
     (trace (run Demo.handler (checkJWT Samples.hello_check) Demo.host)) /\
  lit "k1" = jc_keyId Samples.hello_check /\
  signing_input (lit "hello") ++ lit "." ++ Reference.b64_encode Demo.hello_signature
  = jc_jwt Samples.hello_check /\
  count_occ N.eq_dec (signing_input (lit "hello")) DOT = 1%nat /\
  ~ In DOT (Reference.b64_encode Demo.hello_signature).
Proof.
  assert (Hin : In (CVerify (lit "k1") (signing_input (lit "hello"))
                            (Reference.b64_encode Demo.hello_signature) true)
                   (trace (run Demo.handler (checkJWT Samples.hello_check)
                               Demo.host)))
    by (vm_compute; do 3 right; left; reflexivity).
  split; [exact Hin|].
  exact (@checkJWT_verifies_the_whole_token Reference.codec Wallet (Host nat)
           Demo.handler Samples.hello_check Demo.host _ _ _ _ Hin).
Defined.

Lemma checkJWT_without_wallet_is_silent_witness :
  count_occ N.eq_dec (jc_jwt Samples.hello_check) DOT = 2%nat /\
  fst (Demo.handler Wallet_load Demo.empty_host) = None /\
  run Demo.handler (checkJWT Samples.hello_check) Demo.empty_host
  = {| result := tt; final := Demo.empty_host; trace := [CLoad false] |}.
Proof.
  assert (Hd : count_occ N.eq_dec (jc_jwt Samples.hello_check) DOT = 2%nat)
    by (vm_compute; reflexivity).
  split; [exact Hd|]. split; [reflexivity|].
  exact (@checkJWT_without_wallet_is_silent Reference.codec Wallet (Host nat)
           Demo.handler Samples.hello_check Demo.empty_host Hd eq_refl).
Defined.

Lemma checkJWT_strips_one_backslash_witness :
  let t := trace (run Demo.handler (checkJWT Samples.slashed_check) Demo.host) in
  let a := Samples.slashed_header in
  let b := payload_segment (lit "hello") in
  let hb := Reference.utf8_encode [97; BACKSLASH; 98; BACKSLASH; 99] true in
  let pb := Reference.utf8_encode (lit "hello") true in
  split (jc_jwt Samples.slashed_check) DOT = [a; b; lit "AAAA"] /\
  In (CLoad true) t /\
  decode a = Some hb /\
  decode b = Some pb /\
  UTF8_decode hb true = [97] ++ BACKSLASH :: [98; BACKSLASH; 99] /\
  ~ In BACKSLASH [97] /\
  ~ In BACKSLASH (UTF8_decode pb true) /\
  firstn 2 (emits t)
  = [lit "jwtHeaderStr: " ++ [97; 98; BACKSLASH; 99];
     lit "jwtPayloadStr: " ++ lit "hello"].
Proof.
  intros t a b hb pb.
  assert (Es : split (jc_jwt Samples.slashed_check) DOT = [a; b; lit "AAAA"])
    by (vm_compute; reflexivity).
  assert (Hl : In (CLoad true) t) by (left; reflexivity).
  assert (Da : decode a = Some hb) by (vm_compute; reflexivity).
  assert (Db : decode b = Some pb) by (vm_compute; reflexivity).
  assert (Eh : UTF8_decode hb true = [97] ++ BACKSLASH :: [98; BACKSLASH; 99])
    by (vm_compute; reflexivity).
  assert (Nh : ~ In BACKSLASH [97]) by (intros [D|[]]; discriminate D).
  assert (Np : ~ In BACKSLASH (UTF8_decode pb true))
    by (vm_compute; intros D; in_cases D).
  do 7 (split; [assumption|]).
  destruct (@checkJWT_strips_one_backslash Reference.codec Wallet (Host nat)
              Demo.handler Samples.slashed_check Demo.host a b (lit "AAAA")
              hb pb Es Hl Da Db)
    as (hs & ps & E & H1 & _ & _ & _ & H2 & _).
  fold t in E. rewrite E.
  rewrite (H1 [97] [98; BACKSLASH; 99] Eh Nh), (H2 Np).
  vm_compute. reflexivity.
Defined.

(** The header text a, backslash, b, backslash, c is shown as a, b,
    backslash, c. *)
Example slashed_header_shown :
  nth 0 (emits (trace (run Demo.handler (checkJWT Samples.slashed_check)
                           Demo.host))) []
  = lit "jwtHeaderStr: " ++ [97; 98; BACKSLASH; 99].
Proof. vm_compute. reflexivity. Qed.

Lemma checkJWT_verify_arguments_fix_the_token_witness :
  let p := signing_input (lit "hello") in
  let sg := Reference.b64_encode Demo.hello_signature in
  In (CVerify (lit "k1") p sg true)
     (trace (run Demo.handler
                 (@checkJWT Reference.codec Wallet Samples.hello_check) Demo.host)) /\
  In (CVerify (lit "k1") p sg true)
     (trace (run Demo.handler
                 (@checkJWT Demo.blind_codec Wallet Samples.hello_check) Demo.host)) /\
  jc_jwt Samples.hello_check = jc_jwt Samples.hello_check.
Proof.
  intros p sg.
  assert (H1 : In (CVerify (lit "k1") p sg true)
                  (trace (run Demo.handler
                              (@checkJWT Reference.codec Wallet Samples.hello_check)
                              Demo.host)))
    by (vm_compute; do 3 right; left; reflexivity).
  assert (H2 : In (CVerify (lit "k1") p sg true)
                  (trace (run Demo.handler
                              (@checkJWT Demo.blind_codec Wallet Samples.hello_check)
                              Demo.host)))
    by (vm_compute; do 3 right; left; reflexivity).
  split; [exact H1|]. split; [exact H2|].
  exact (@checkJWT_verify_arguments_fix_the_token Reference.codec Demo.blind_codec
           Wallet (Host nat) Wallet (Host nat) Demo.handler Demo.handler
           Samples.hello_check Samples.hello_check Demo.host Demo.host
           (lit "k1") (lit "k1") p sg true true H1 H2).
Defined.

End EvaluatedMore.
